(** * ionic ssl generate: a shallow embedding of
      packages/ionic/src/commands/ssl/generate.ts

    The command resolves its options, prepares the destination directories,
    asks before overwriting an existing key or certificate, writes an OpenSSL
    configuration to a temporary file and runs [openssl req].

    Strings are sequences of 8-bit code units (the Latin-1 range of a
    JavaScript string).  Everything the command asks of its surroundings
    (filesystem, prompt, shell, logger) is a call of a small free monad;
    a handler answers the calls and the interpreter records them. *)

From Stdlib Require Import ZArith Ascii String List Lia.
From stdpp Require Import base strings gmap list.

Set Default Proof Using "Type".

(** ** JavaScript values held by the option bag *)

(** Modelled from the spec: the type [CommandLineOptions] is declared in
    @ionic/cli-utils (definitions.ts), not in generate.ts.  The spec calls
    the options "named string options"; the parser of the command line
    may also deliver booleans, null, undefined and string arrays, and the
    code converts whatever it gets with [String(...)]. *)
Inductive CommandLineOption : Type :=
| OStr (s : string)
| OBool (b : bool)
| ONull
| OUndefined
| OArr (xs : list string).

Abbreviation CommandLineOptions := (gmap string CommandLineOption).
Abbreviation CommandLineInputs := (list string) (only parsing).

(** [options[k]]: a missing key reads as [undefined]. *)
Definition opt_get (options : CommandLineOptions) (k : string) : CommandLineOption :=
  default OUndefined (options !! k).

(** JavaScript truthiness, as tested by [v ? a : b]. *)
Definition truthy (v : CommandLineOption) : bool :=
  match v with
  | OStr s => negb (String.eqb s "")
  | OBool b => b
  | ONull => false
  | OUndefined => false
  | OArr _ => true
  end.

(** JavaScript [String(v)]. *)
Definition js_String (v : CommandLineOption) : string :=
  match v with
  | OStr s => s
  | OBool true => "true"
  | OBool false => "false"
  | ONull => "null"
  | OUndefined => "undefined"
  | OArr xs => String.concat "," xs
  end.

(** [options[k] ? String(options[k]) : d], the idiom of lines 121-131. *)
Definition opt_or (options : CommandLineOptions) (k : string) (d : string) : string :=
  if truthy (opt_get options k) then js_String (opt_get options k) else d.

(** ** String helpers *)

Definition slash : ascii := "/"%char.

Definition is_slash (c : ascii) : bool := Ascii.eqb c slash.

Definition starts_with_slash (s : string) : bool :=
  match s with
  | String c _ => is_slash c
  | EmptyString => false
  end.

(** [s.split('/')]: always at least one segment. *)
Fixpoint split_slash (s : string) : list string :=
  match s with
  | EmptyString => [EmptyString]
  | String c s' =>
      if is_slash c then EmptyString :: split_slash s'
      else match split_slash s' with
           | seg :: rest => String c seg :: rest
           | [] => [String c EmptyString]
           end
  end.

(** [xs.join('/')]. *)
Definition join_slash (xs : list string) : string := String.concat "/" xs.

(** Whitespace and line terminators removed by [String.prototype.trim],
    within the 8-bit range: TAB, LF, VT, FF, CR, SPACE and NBSP. *)
Definition is_js_space (c : ascii) : bool :=
  let n := nat_of_ascii c in
  (n =? 9)%nat || (n =? 10)%nat || (n =? 11)%nat || (n =? 12)%nat ||
  (n =? 13)%nat || (n =? 32)%nat || (n =? 160)%nat.

Fixpoint trim_start (s : string) : string :=
  match s with
  | String c s' => if is_js_space c then trim_start s' else s
  | EmptyString => EmptyString
  end.

Fixpoint trim_end (s : string) : string :=
  match s with
  | EmptyString => EmptyString
  | String c s' =>
      match trim_end s' with
      | EmptyString => if is_js_space c then EmptyString else String c EmptyString
      | t => String c t
      end
  end.

(** [s.trim()]. *)
Definition trim (s : string) : string := trim_end (trim_start s).

(** ** Node's [path] module, POSIX flavour *)

Module path.

(** One segment of [normalizeString]: empty and "." segments vanish,
    ".." removes the segment before it (or, above the root, stays only
    when [allowAboveRoot]); the stack holds the kept segments, last
    first. *)
Definition normalize_step (allowAboveRoot : bool) (stack : list string) (seg : string)
  : list string :=
  if String.eqb seg "" then stack
  else if String.eqb seg "." then stack
  else if String.eqb seg ".." then
    match stack with
    | top :: rest =>
        if String.eqb top ".." then (if allowAboveRoot then seg :: stack else stack)
        else rest
    | [] => if allowAboveRoot then [seg] else []
    end
  else seg :: stack.

Definition normalizeString (p : string) (allowAboveRoot : bool) : string :=
  join_slash (rev (fold_left (normalize_step allowAboveRoot) (split_slash p) [])).

(** The loop of [resolve]: arguments are taken from the right until an
    absolute one has been prepended; empty arguments are skipped. *)
Fixpoint resolve_loop (paths : list string) (resolvedPath : string) : string * bool :=
  match paths with
  | [] => (resolvedPath, false)
  | p :: rest =>
      if String.eqb p "" then resolve_loop rest resolvedPath
      else
        let resolvedPath' := p +:+ "/" +:+ resolvedPath in
        if starts_with_slash p then (resolvedPath', true)
        else resolve_loop rest resolvedPath'
  end.

(** [path.resolve(...args)] with [process.cwd()] given as [cwd]. *)
Definition resolve (cwd : string) (args : list string) : string :=
  let '(resolvedPath, resolvedAbsolute) := resolve_loop (rev args ++ [cwd]) "" in
  let n := normalizeString resolvedPath (negb resolvedAbsolute) in
  if resolvedAbsolute then "/" +:+ n
  else if String.eqb n "" then "." else n.

Fixpoint drop_while (f : ascii -> bool) (l : list ascii) : list ascii :=
  match l with
  | c :: l' => if f c then drop_while f l' else l
  | [] => []
  end.

(** [path.dirname(p)]: scan from the end down to index 1, skip trailing
    slashes, skip the last segment, cut at the slash before it. *)
Definition dirname (p : string) : string :=
  match p with
  | EmptyString => "."
  | String c body =>
      let hasRoot := is_slash c in
      let scanned := rev (list_ascii_of_string body) in
      let before := drop_while (fun a => negb (is_slash a)) (drop_while is_slash scanned) in
      match before with
      | [] => if hasRoot then "/" else "."
      | _ :: kept =>
          match kept with
          | [] => if hasRoot then "//" else String c EmptyString
          | _ => String c (string_of_list_ascii (rev kept))
          end
      end
  end.

End path.


(** ** Calls to the surroundings *)

(** What a rejected promise or a [throw] carries.  [FatalException] is the
    CLI's own error class; [Rejected] is any error raised by the
    filesystem, the prompt, the shell or the logger. *)
Inductive exn : Type :=
| FatalException (message : string)
| Rejected (reason : string).

Inductive outcome (A : Type) : Type :=
| Returned (a : A)
| Thrown (e : exn).
Arguments Returned {A} a.
Arguments Thrown {A} e.

(** The question object handed to [this.env.prompt]. *)
Record Question : Type := mkQuestion {
  q_type : string;
  q_name : string;
  q_message : string
}.

(** The imported and inherited operations the command calls, each with the
    type of its result. *)
Inductive call : Type -> Type :=
| PathExists (p : string) : call bool
| FsMkdirp (p : string) (mode : Z) : call unit
| FsUnlink (p : string) : call unit
| FsWriteFile (p : string) (data : string) (encoding : string) : call unit
| Tmpfilepath (prefix : string) : call string
| Prompt (q : Question) : call bool
| ShellRun (command : string) (args : list string) : call unit
| LogNl : call unit
| LogMsg (s : string) : call unit
| LogRawmsg (s : string) : call unit
| LogOk (s : string) : call unit
| CheckForOpenSSL : call unit.

(** An asynchronous method body: it returns, throws, or makes a call and
    continues with the answer. *)
Inductive prog (A : Type) : Type :=
| Ret (a : A)
| Throw (e : exn)
| Vis {X : Type} (c : call X) (k : X -> prog A).
Arguments Ret {A} a.
Arguments Throw {A} e.
Arguments Vis {A X} c k.

Fixpoint bind {A B : Type} (m : prog A) (f : A -> prog B) : prog B :=
  match m with
  | Ret a => f a
  | Throw e => Throw e
  | Vis c k => Vis c (fun x => bind (k x) f)
  end.

(** [await c], for the operations that return a promise. *)
Definition await {X : Type} (c : call X) : prog X := Vis c Ret.

(** A plain call, for the synchronous ones ([tmpfilepath], the logger). *)
Definition invoke {X : Type} (c : call X) : prog X := Vis c Ret.

Declare Scope prog_scope.
Delimit Scope prog_scope with prog.
Notation "x <- m ;; k" := (bind m (fun x => k))
  (at level 100, m at next level, k at level 200, right associativity) : prog_scope.
Notation "m ;; k" := (bind m (fun _ => k))
  (at level 100, k at level 200, right associativity) : prog_scope.
Open Scope prog_scope.

(** One answered call. *)
Record event : Type := Ev {
  ev_type : Type;
  ev_call : call ev_type;
  ev_answer : outcome ev_type
}.
Arguments Ev {ev_type} ev_call ev_answer.

(** The surroundings: a state and an answer to every call. *)
Definition handler (W : Type) : Type := forall X : Type, call X -> W -> outcome X * W.

(** Runs a body against the surroundings; gives the outcome, the final
    state and the calls made, in order.  A call that throws ends the body:
    the command has no [try]. *)
Fixpoint exec {W A : Type} (h : handler W) (p : prog A) (w : W)
  : outcome A * W * list event :=
  match p with
  | Ret a => (Returned a, w, [])
  | Throw e => (Thrown e, w, [])
  | Vis c k =>
      match h _ c w with
      | (Returned x, w1) =>
          let '(o, w2, tr) := exec h (k x) w1 in (o, w2, Ev c (Returned x) :: tr)
      | (Thrown e, w1) => (Thrown e, w1, [Ev c (Thrown e)])
      end
  end.

(** ** Observations on a trace *)

Definition is_write (e : event) : bool :=
  match ev_call e with FsWriteFile _ _ _ => true | _ => false end.

Definition is_shell (e : event) : bool :=
  match ev_call e with ShellRun _ _ => true | _ => false end.

Definition is_log (e : event) : bool :=
  match ev_call e with
  | LogNl | LogMsg _ | LogRawmsg _ | LogOk _ => true
  | _ => false
  end.

(** A call that removes or rewrites no file: everything but [fsUnlink],
    [fsWriteFile] and a subprocess. *)
Definition harmless (e : event) : bool :=
  match ev_call e with
  | FsUnlink _ | FsWriteFile _ _ _ | ShellRun _ _ => false
  | _ => true
  end.

(** The subprocesses started: command and argument list. *)
Definition shell_calls (tr : list event) : list (string * list string) :=
  flat_map (fun e => match ev_call e with
                     | ShellRun c args => [(c, args)]
                     | _ => []
                     end) tr.

(** The paths handed to [fsUnlink]. *)
Definition unlinked (tr : list event) : list string :=
  flat_map (fun e => match ev_call e with FsUnlink p => [p] | _ => [] end) tr.

(** The paths handed out by [tmpfilepath]. *)
Definition tmp_paths (tr : list event) : list string :=
  flat_map (fun e => match e with
                     | Ev (Tmpfilepath _) (Returned p) => [p]
                     | _ => []
                     end) tr.

(** The files written: path and content. *)
Definition written (tr : list event) : list (string * string) :=
  flat_map (fun e => match ev_call e with
                     | FsWriteFile p data _ => [(p, data)]
                     | _ => []
                     end) tr.

(** The paths of the files that [fsWriteFile] has written. *)
Definition written_ok (tr : list event) : list string :=
  flat_map (fun e => match e with
                     | Ev (FsWriteFile p _ _) (Returned _) => [p]
                     | _ => []
                     end) tr.

(** The messages shown by the prompt, each with the operator's answer. *)
Definition prompts (tr : list event) : list (string * outcome bool) :=
  flat_map (fun e => match e with
                     | Ev (Prompt q) a => [(q_message q, a)]
                     | _ => []
                     end) tr.

(** The lines given to [log.msg]. *)
Definition log_msgs (tr : list event) : list string :=
  flat_map (fun e => match ev_call e with LogMsg s => [s] | _ => [] end) tr.

(** The directories handed to [fsMkdirp], each with its mode. *)
Definition mkdirps (tr : list event) : list (string * Z) :=
  flat_map (fun e => match ev_call e with FsMkdirp p m => [(p, m)] | _ => [] end) tr.

(** The directories that [fsMkdirp] has created. *)
Definition created (tr : list event) : list string :=
  flat_map (fun e => match e with
                     | Ev (FsMkdirp p _) (Returned _) => [p]
                     | _ => []
                     end) tr.

(** What follows the first [fsWriteFile] in a trace. *)
Fixpoint after_write (tr : list event) : list event :=
  match tr with
  | [] => []
  | e :: tr' => if is_write e then tr' else after_write tr'
  end.

(** ** The process the command runs in *)

(** [process.cwd()], [prettyPath] of @ionic/cli-framework/utils/format and
    the styles of chalk are imported by generate.ts; they are parameters
    here.  Node reports the working directory as an absolute path. *)
Class Host : Type := {
  cwd : string;
  cwd_absolute : starts_with_slash cwd = true;
  prettyPath : string -> string;
  chalk_bold : string -> string;
  chalk_green : string -> string
}.

(** [this.project], as far as the command reads it. *)
Record IProject : Type := { directory : string }.

(** ** generate.ts *)

Definition DEFAULT_BITS : string := "2048".
Definition DEFAULT_COUNTRY_NAME : string := "US".
Definition DEFAULT_STATE_OR_PROVINCE_NAME : string := "Wisconsin".
Definition DEFAULT_LOCALITY_NAME : string := "Madison".
Definition DEFAULT_ORGANIZATION_NAME : string := "Ionic".
Definition DEFAULT_COMMON_NAME : string := "localhost".

Record OpenSSLConfig : Type := mkOpenSSLConfig {
  bits : string;
  countryName : string;
  stateOrProvinceName : string;
  localityName : string;
  organizationName : string;
  commonName : string
}.

Definition DEFAULT_KEY_FILE : string := ".ionic/ssl/key.pem".
Definition DEFAULT_CERT_FILE : string := ".ionic/ssl/cert.pem".

(** The octal literal [0o700]: read, write and search for the owner only. *)
Definition mode_0o700 : Z := 7 * 8 * 8.

(** Line feed, and the template literal's [${x}] on a possibly undefined
    string. *)
Definition LF : string := String (ascii_of_nat 10) EmptyString.

Definition interpolate (x : option string) : string := default "undefined" x.

(** [lodash.toPairs(cnf)]: the own enumerable properties of the object
    literal of line 147, in the order they were written. *)
Definition toPairs (cnf : OpenSSLConfig) : list (string * string) :=
  [ ("bits", bits cnf);
    ("countryName", countryName cnf);
    ("stateOrProvinceName", stateOrProvinceName cnf);
    ("localityName", localityName cnf);
    ("organizationName", organizationName cnf);
    ("commonName", commonName cnf) ].

(** A JavaScript [Map] built from a list of entries. *)
Fixpoint Map_get (m : list (string * string)) (k : string) : option string :=
  match m with
  | [] => None
  | (k', v) :: m' => if String.eqb k' k then Some v else Map_get m' k
  end.

Definition Map_has (m : list (string * string)) (k : string) : bool :=
  match Map_get m k with Some _ => true | None => false end.

Section SSLGenerateCommand.
Context `{Host}.

Definition getDefaultKeyPath (this_project : option IProject) : string :=
  path.resolve cwd
    [match this_project with Some p => directory p | None => "" end; DEFAULT_KEY_FILE].

Definition getDefaultCertPath (this_project : option IProject) : string :=
  path.resolve cwd
    [match this_project with Some p => directory p | None => "" end; DEFAULT_CERT_FILE].

Definition preRun (inputs : CommandLineInputs) (options : CommandLineOptions) : prog unit :=
  await CheckForOpenSSL.

Definition formatSubj (cnf : OpenSSLConfig) : string :=
  let subjNames :=
    [ ("countryName", "C");
      ("stateOrProvinceName", "ST");
      ("localityName", "L");
      ("organizationName", "O");
      ("commonName", "CN") ] in
  "/" +:+
  join_slash
    (map (fun '(k, v) => interpolate (Map_get subjNames k) +:+ "=" +:+ v)
       (List.filter (fun '(k, _) => Map_has subjNames k) (toPairs cnf))).

Definition ensureDirectory (p : string) : prog unit :=
  exists_ <- await (PathExists p) ;;
  if negb exists_ then
    await (FsMkdirp p mode_0o700) ;;
    invoke (LogMsg ("Created " +:+ chalk_bold (prettyPath p) +:+ " directory for you."))
  else Ret tt.

(** The result is [boolean | undefined]: [None] is falling off the end
    of the body. *)
Definition checkExistingFile (p : string) : prog (option bool) :=
  exists_ <- await (PathExists p) ;;
  if exists_ then
    confirm <- await (Prompt {| q_type := "confirm";
                                q_name := "confirm";
                                q_message := "Key " +:+ chalk_bold (prettyPath p)
                                               +:+ " exists. Overwrite?" |}) ;;
    if confirm then Ret (Some true)
    else Throw (FatalException ("Not overwriting " +:+ chalk_bold (prettyPath p) +:+ "."))
  else Ret None.

(** The text of the template literal of lines 198-212, trimmed. *)
Definition config_text (c : OpenSSLConfig) : string :=
  trim (LF +:+
    "[req]" +:+ LF +:+
    "default_bits       = " +:+ bits c +:+ LF +:+
    "distinguished_name = req_distinguished_name" +:+ LF +:+
    LF +:+
    "[req_distinguished_name]" +:+ LF +:+
    "countryName                = " +:+ countryName c +:+ LF +:+
    "stateOrProvinceName        = " +:+ stateOrProvinceName c +:+ LF +:+
    "localityName               = " +:+ localityName c +:+ LF +:+
    "organizationName           = " +:+ organizationName c +:+ LF +:+
    "commonName                 = " +:+ commonName c +:+ LF +:+
    LF +:+
    "[SAN]" +:+ LF +:+
    "subjectAltName=DNS:" +:+ commonName c +:+ LF).

Definition writeConfig (c : OpenSSLConfig) : prog string :=
  let cnf := config_text c in
  p <- invoke (Tmpfilepath "ionic-ssl") ;;
  await (FsWriteFile p cnf "utf8") ;;
  Ret p.

(** The constants of [run], lines 121-131 and 147. *)
Definition run_keyPath (this_project : option IProject) (options : CommandLineOptions)
  : string :=
  path.resolve cwd
    [if truthy (opt_get options "key-path") then js_String (opt_get options "key-path")
     else getDefaultKeyPath this_project].

Definition run_certPath (this_project : option IProject) (options : CommandLineOptions)
  : string :=
  path.resolve cwd
    [if truthy (opt_get options "cert-path") then js_String (opt_get options "cert-path")
     else getDefaultCertPath this_project].

Definition run_cnf (options : CommandLineOptions) : OpenSSLConfig :=
  {| bits := opt_or options "bits" DEFAULT_BITS;
     countryName := opt_or options "country-name" DEFAULT_COUNTRY_NAME;
     stateOrProvinceName :=
       opt_or options "state-or-province-name" DEFAULT_STATE_OR_PROVINCE_NAME;
     localityName := opt_or options "locality-name" DEFAULT_LOCALITY_NAME;
     organizationName := opt_or options "organization-name" DEFAULT_ORGANIZATION_NAME;
     commonName := opt_or options "common-name" DEFAULT_COMMON_NAME |}.

(** The argument list of line 150. *)
Definition openssl_args (c : OpenSSLConfig) (cnfPath keyPath certPath : string)
  : list string :=
  ["req"; "-x509"; "-newkey"; "rsa:" +:+ bits c; "-nodes"; "-subj"; formatSubj c;
   "-reqexts"; "SAN"; "-extensions"; "SAN"; "-config"; cnfPath; "-days"; "365";
   "-keyout"; keyPath; "-out"; certPath].

Definition run (this_project : option IProject)
    (inputs : CommandLineInputs) (options : CommandLineOptions) : prog unit :=
  match this_project with
  | None =>
      Throw (FatalException
               ("Cannot run " +:+ chalk_green "ionic ssl generate"
                  +:+ " outside a project directory."))
  | Some _ =>
      let keyPath := run_keyPath this_project options in
      let keyPathDir := path.dirname keyPath in
      let certPath := run_certPath this_project options in
      let certPathDir := path.dirname certPath in
      let cnf := run_cnf options in
      ensureDirectory keyPathDir ;;
      ensureDirectory certPathDir ;;
      overwriteKeyPath <- checkExistingFile keyPath ;;
      overwriteCertPath <- checkExistingFile certPath ;;
      (if default false overwriteKeyPath then await (FsUnlink keyPath) else Ret tt) ;;
      (if default false overwriteCertPath then await (FsUnlink certPath) else Ret tt) ;;
      cnfPath <- writeConfig cnf ;;
      await (ShellRun "openssl" (openssl_args cnf cnfPath keyPath certPath)) ;;
      invoke LogNl ;;
      invoke (LogRawmsg ("Key:  " +:+ chalk_bold (prettyPath keyPath) +:+ LF +:+
                        "Cert: " +:+ chalk_bold (prettyPath certPath) +:+ LF +:+ LF)) ;;
      invoke (LogOk "Generated key & certificate!")
  end.


End SSLGenerateCommand.

(** ** A machine to run the command on *)

(** Modelled from the spec: [pathExists], [fsMkdirp], [fsUnlink] and
    [fsWriteFile] of @ionic/utils-fs, the prompt, the shell and the logger
    are imported by generate.ts.  This handler gives them a state: a map
    from absolute paths to files and directories, the answers the operator
    is going to give, and what has been logged.  A directory that is absent
    is created recursively (the missing ancestors too, nothing replaced)
    with the given mode, deleting removes a file, writing creates or
    replaces a file, and the prompt consumes one answer. *)
Inductive node : Type :=
| File (content : string)
| Dir (mode : Z).

Record World : Type := mkWorld {
  fs : gmap string node;
  operator : list bool;
  screen : list string
}.

(** What the run cannot know of the machine: the name [tmpfilepath] picks
    and what a subprocess does to the files. *)
Record Machine : Type := mkMachine {
  tmpname : string -> string;
  shell : string -> list string -> gmap string node -> outcome unit * gmap string node;
  openssl_installed : bool
}.

Definition nonempty (s : string) : bool := negb (String.eqb s "").

(** [/a], [/a/b], [/a/b/c] for [/a/b/c]. *)
Fixpoint ancestors_from (base : string) (segs : list string) : list string :=
  match segs with
  | [] => []
  | s :: rest => let d := base +:+ "/" +:+ s in d :: ancestors_from d rest
  end.

Definition ancestors (p : string) : list string :=
  ancestors_from "" (List.filter nonempty (split_slash p)).

Fixpoint mkdirp_all (dirs : list string) (mode : Z) (f : gmap string node)
  : outcome unit * gmap string node :=
  match dirs with
  | [] => (Returned tt, f)
  | d :: rest =>
      match f !! d with
      | None => mkdirp_all rest mode (<[d := Dir mode]> f)
      | Some (Dir _) => mkdirp_all rest mode f
      | Some (File _) => (Thrown (Rejected "ENOTDIR"), f)
      end
  end.

Definition set_fs (w : World) (f : gmap string node) : World :=
  {| fs := f; operator := operator w; screen := screen w |}.

Definition print (w : World) (s : string) : World :=
  {| fs := fs w; operator := operator w; screen := screen w ++ [s] |}.

Definition machine (m : Machine) : handler World :=
  fun X c =>
    match c in call X return World -> outcome X * World with
    | PathExists p => fun w =>
        (Returned (match fs w !! p with Some _ => true | None => false end), w)
    | FsMkdirp p mode => fun w =>
        let '(o, f) := mkdirp_all (ancestors p) mode (fs w) in (o, set_fs w f)
    | FsUnlink p => fun w =>
        match fs w !! p with
        | Some (File _) => (Returned tt, set_fs w (delete p (fs w)))
        | Some (Dir _) => (Thrown (Rejected "EISDIR"), w)
        | None => (Thrown (Rejected "ENOENT"), w)
        end
    | FsWriteFile p data _ => fun w =>
        match fs w !! p with
        | Some (Dir _) => (Thrown (Rejected "EISDIR"), w)
        | _ => (Returned tt, set_fs w (<[p := File data]> (fs w)))
        end
    | Tmpfilepath prefix => fun w => (Returned (tmpname m prefix), w)
    | Prompt q => fun w =>
        match operator w with
        | a :: rest =>
            (Returned a, {| fs := fs w; operator := rest; screen := screen w |})
        | [] => (Thrown (Rejected "prompt closed"), w)
        end
    | ShellRun command args => fun w =>
        let '(o, f) := shell m command args (fs w) in (o, set_fs w f)
    | LogNl => fun w => (Returned tt, print w "")
    | LogMsg s => fun w => (Returned tt, print w s)
    | LogRawmsg s => fun w => (Returned tt, print w s)
    | LogOk s => fun w => (Returned tt, print w s)
    | CheckForOpenSSL => fun w =>
        if openssl_installed m then (Returned tt, w)
        else (Thrown (Rejected "openssl not found"), w)
    end.

(** A terminal without colours, showing paths as they are. *)
Definition plain_cwd : string := "/home/dev/app".

Definition plain_host : Host :=
  {| cwd := plain_cwd;
     cwd_absolute := eq_refl;
     prettyPath := fun p => p;
     chalk_bold := fun s => s;
     chalk_green := fun s => s |}.

(** A machine whose [openssl] writes a key and a certificate at the paths
    after [-keyout] and [-out]. *)
Fixpoint arg_after (flag : string) (args : list string) : option string :=
  match args with
  | a :: rest =>
      if String.eqb a flag then head rest else arg_after flag rest
  | [] => None
  end.

Definition demo_shell (command : string) (args : list string) (f : gmap string node)
  : outcome unit * gmap string node :=
  match arg_after "-keyout" args, arg_after "-out" args with
  | Some k, Some c => (Returned tt, <[c := File "CERT"]> (<[k := File "KEY"]> f))
  | _, _ => (Thrown (Rejected "openssl failed"), f)
  end.

Definition demo_machine : Machine :=
  {| tmpname := fun prefix => "/tmp/" +:+ prefix +:+ "-0001";
     shell := demo_shell;
     openssl_installed := true |}.

Definition demo_project : IProject := {| directory := "/home/dev/app" |}.

(** ** The lines of a text *)

(** [s.split('\n')]: the lines of a text, always at least one. *)
Fixpoint lines (s : string) : list string :=
  match s with
  | EmptyString => [EmptyString]
  | String c s' =>
      if Ascii.eqb c (ascii_of_nat 10) then EmptyString :: lines s'
      else match lines s' with
           | l :: rest => String c l :: rest
           | [] => [String c EmptyString]
           end
  end.

(** ** Segments of a normalised path *)

Definition slash_free (s : string) : bool :=
  forallb (fun c => negb (is_slash c)) (list_ascii_of_string s).

(** A segment that [normalizeString] keeps as it is. *)
Definition clean (s : string) : bool :=
  slash_free s && nonempty s && negb (String.eqb s ".") && negb (String.eqb s "..").

(** ** getMetadata *)

(** The members of the enumerations [OptionGroup] and [CommandGroup] of
    @ionic/cli-framework that generate.ts names. *)
Inductive OptionGroup : Type := Advanced.

Inductive CommandGroup : Type := Experimental.

(** One entry of [options]; a property the source leaves out is
    [None]. *)
Record CommandMetadataOption : Type := mkOption {
  opt_name : string;
  opt_summary : string;
  opt_default : string;
  opt_aliases : option (list string);
  opt_groups : option (list OptionGroup)
}.

Record CommandMetadata : Type := mkMetadata {
  cmd_name : string;
  cmd_type : string;
  cmd_summary : string;
  cmd_description : string;
  cmd_options : list CommandMetadataOption;
  cmd_groups : list CommandGroup
}.

Section Metadata.
Context `{Host}.

Definition getMetadata (this_project : option IProject) : prog CommandMetadata :=
  let defaultKeyPath := prettyPath (getDefaultKeyPath this_project) in
  let defaultCertPath := prettyPath (getDefaultCertPath this_project) in
  Ret {|
    cmd_name := "generate";
    cmd_type := "project";
    cmd_summary := "Generates an SSL key & certificate";
    cmd_description :=
      LF +:+ "Uses OpenSSL to create a self-signed certificate for "
         +:+ chalk_bold "localhost" +:+ " (by default)." +:+ LF +:+
      LF +:+ "After the certificate is generated, you will still need to add it to your system or browser as a trusted certificate." +:+ LF +:+
      LF +:+ "The default directory for " +:+ chalk_green "--key-path" +:+ " and "
         +:+ chalk_green "--cert-path" +:+ " is " +:+ chalk_green ".ionic/ssl/" +:+ "."
         +:+ LF +:+ "      ";
    cmd_options :=
      [ {| opt_name := "key-path";
           opt_summary := "Destination of private key file";
           opt_default := defaultKeyPath;
           opt_aliases := None;
           opt_groups := None |};
        {| opt_name := "cert-path";
           opt_summary := "Destination of certificate file";
           opt_default := defaultCertPath;
           opt_aliases := None;
           opt_groups := None |};
        {| opt_name := "country-name";
           opt_summary := "The country name (C) of the SSL certificate";
           opt_default := DEFAULT_COUNTRY_NAME;
           opt_aliases := None;
           opt_groups := Some [Advanced] |};
        {| opt_name := "state-or-province-name";
           opt_summary := "The state or province name (ST) of the SSL certificate";
           opt_default := DEFAULT_STATE_OR_PROVINCE_NAME;
           opt_aliases := None;
           opt_groups := Some [Advanced] |};
        {| opt_name := "locality-name";
           opt_summary := "The locality name (L) of the SSL certificate";
           opt_default := DEFAULT_LOCALITY_NAME;
           opt_aliases := None;
           opt_groups := Some [Advanced] |};
        {| opt_name := "organization-name";
           opt_summary := "The organization name (O) of the SSL certificate";
           opt_default := DEFAULT_ORGANIZATION_NAME;
           opt_aliases := None;
           opt_groups := Some [Advanced] |};
        {| opt_name := "common-name";
           opt_summary := "The common name (CN) of the SSL certificate";
           opt_default := DEFAULT_COMMON_NAME;
           opt_aliases := None;
           opt_groups := Some [Advanced] |};
        {| opt_name := "bits";
           opt_summary := "Number of bits in the key";
           opt_default := DEFAULT_BITS;
           opt_aliases := Some ["b"];
           opt_groups := Some [Advanced] |} ];
    cmd_groups := [Experimental]
  |}.

End Metadata.

(** The default a metadata documents for the option called [k]. *)
Fixpoint documented_default (os : list CommandMetadataOption) (k : string) : option string :=
  match os with
  | [] => None
  | o :: os' => if String.eqb (opt_name o) k then Some (opt_default o)
                else documented_default os' k
  end.

(** The metadata a resolved [getMetadata] promise carries. *)
Definition resolved_value {A : Type} (p : prog A) : option A :=
  match p with
  | Ret a => Some a
  | _ => None
  end.

(** ** More observations on a trace *)

(** The paths handed to the filesystem operations, in order. *)
Definition fs_paths (tr : list event) : list string :=
  flat_map (fun e => match ev_call e with
                     | PathExists p => [p]
                     | FsMkdirp p _ => [p]
                     | FsUnlink p => [p]
                     | _ => []
                     end) tr.

(** The texts given to [log.ok]. *)
Definition log_oks (tr : list event) : list string :=
  flat_map (fun e => match ev_call e with LogOk s => [s] | _ => [] end) tr.

(** Everything given to the logger, in order; [log.nl] gives an empty line. *)
Definition logged (tr : list event) : list string :=
  flat_map (fun e => match ev_call e with
                     | LogNl => [EmptyString]
                     | LogMsg s => [s]
                     | LogRawmsg s => [s]
                     | LogOk s => [s]
                     | _ => []
                     end) tr.

(** The subprocesses that have returned. *)
Definition shell_returned (tr : list event) : list (string * list string) :=
  flat_map (fun e => match e with
                     | Ev (ShellRun c args) (Returned _) => [(c, args)]
                     | _ => []
                     end) tr.

(** The calls that threw. *)
Definition thrown (tr : list event) : list exn :=
  flat_map (fun e => match ev_answer e with Thrown x => [x] | Returned _ => [] end) tr.

(** ** Values that stay on their line *)

Definition lf_free (s : string) : bool :=
  forallb (fun c => negb (Ascii.eqb c (ascii_of_nat 10))) (list_ascii_of_string s).

(** An option value the command-line parser can deliver for a flag given
    once: text, a boolean, or nothing. *)
Definition scalar (v : CommandLineOption) : bool :=
  match v with
  | OArr _ => false
  | _ => true
  end.

(** What follows the first call of a kind in a trace. *)
Fixpoint after (f : event -> bool) (tr : list event) : list event :=
  match tr with
  | [] => []
  | e :: tr' => if f e then tr' else after f tr'
  end.

Definition is_unlink (e : event) : bool :=
  match ev_call e with FsUnlink _ => true | _ => false end.

Definition is_prompt (e : event) : bool :=
  match ev_call e with Prompt _ => true | _ => false end.

(** The prompts the operator declined. *)
Definition declined (tr : list event) : list string :=
  flat_map (fun e => match e with
                     | Ev (Prompt q) (Returned false) => [q_message q]
                     | _ => []
                     end) tr.

(** A machine whose [openssl] fails without touching a file. *)
Definition failing_shell (command : string) (args : list string) (f : gmap string node)
  : outcome unit * gmap string node :=
  (Thrown (Rejected "openssl exited with 1"), f).

Definition broken_machine : Machine :=
  {| tmpname := fun prefix => "/tmp/" +:+ prefix +:+ "-0001";
     shell := failing_shell;
     openssl_installed := true |}.
(** * Properties *)

(** ** Sanity checks of the path and string models *)

Example resolve_ex1 : path.resolve "/home/u" ["proj"; ".ionic/ssl/key.pem"] = "/home/u/proj/.ionic/ssl/key.pem".
Proof. reflexivity. Qed.
Example resolve_ex2 : path.resolve "/home/u" ["/a/b/../c/"; "./d//e"] = "/a/c/d/e".
Proof. reflexivity. Qed.
Example resolve_ex3 : path.resolve "/home/u" ["/../.."] = "/".
Proof. reflexivity. Qed.
Example resolve_ex4 : path.resolve "rel" ["../../x"] = "../x".
Proof. reflexivity. Qed.
Example dirname_ex : map path.dirname ["/a/b/c.pem"; "/a"; "/"; "a"; "a/b/"; "/a//b"; "//a"; ""] = ["/a/b"; "/"; "/"; "."; "a"; "/a/"; "//"; "."].
Proof. reflexivity. Qed.
Example trim_ex : trim "  a b
 " = "a b".
Proof. reflexivity. Qed.

(** ** The interpreter *)

Lemma exec_bind {W A B : Type} (h : handler W) (m : prog A) (f : A -> prog B) (w : W) :
  exec h (bind m f) w =
  match exec h m w with
  | (Returned a, w1, tr1) =>
      let '(o, w2, tr2) := exec h (f a) w1 in (o, w2, tr1 ++ tr2)
  | (Thrown e, w1, tr1) => (Thrown e, w1, tr1)
  end.
Proof.
  revert w; induction m as [a|e|X c k IH]; intros w; simpl.
  - destruct (exec h (f a) w) as [[o w2] tr2]; reflexivity.
  - reflexivity.
  - destruct (h X c w) as [[x|e] w1]; [|reflexivity].
    rewrite IH. destruct (exec h (k x) w1) as [[[a|e] w2] tr1]; [|reflexivity].
    destruct (exec h (f a) w2) as [[o w3] tr2]; reflexivity.
Qed.

(** ** Strings *)

Lemma append_nil_l (t : string) : "" +:+ t = t.
Proof. reflexivity. Qed.

Lemma append_cons (a : ascii) (s t : string) : String a s +:+ t = String a (s +:+ t).
Proof. reflexivity. Qed.

Lemma append_nil_r (s : string) : s +:+ "" = s.
Proof. induction s as [|a s IH]; [reflexivity|]. rewrite append_cons, IH. reflexivity. Qed.

Lemma append_assoc (s t u : string) : (s +:+ t) +:+ u = s +:+ t +:+ u.
Proof.
  induction s as [|a s IH]; [reflexivity|].
  rewrite !append_cons, IH. reflexivity.
Qed.

Ltac string_norm := rewrite ?append_assoc, ?append_cons, ?append_nil_l.

(** ** The subject string *)

(** C4: for arbitrary text in the five subject fields the subject string is
    /C=<country>/ST=<state>/L=<locality>/O=<organization>/CN=<commonName>,
    in that order, and the bits field does not appear in it. *)
Theorem formatSubj_exact (b c st l o cn : string) :
  formatSubj (mkOpenSSLConfig b c st l o cn) =
  "/C=" +:+ c +:+ "/ST=" +:+ st +:+ "/L=" +:+ l +:+ "/O=" +:+ o +:+ "/CN=" +:+ cn.
Proof.
  unfold formatSubj, join_slash; simpl.
  repeat string_norm. reflexivity.
Qed.

(** ** Stepping through a body *)

(** Takes the next answer of the handler [h] apart: a returned boolean or
    unit is split further, so that the body can go on. *)
Ltac answer h :=
  match goal with
  | |- context [h ?X ?c ?w] =>
      let x := fresh "x" in
      let e := fresh "e" in
      let w1 := fresh "w" in
      let E := fresh "E" in
      destruct (h X c w) as [[x|e] w1] eqn:E;
      [ match type of x with
        | bool => destruct x
        | unit => destruct x
        | _ => idtac
        end | ]
  end.

Ltac run_cases h :=
  unfold run, ensureDirectory, checkExistingFile, writeConfig, await, invoke;
  repeat (cbn [exec bind negb from_option id]; try answer h).

(** ** Outside a project *)

(** With [this.project] unset [run] throws at once, before any call. *)
Lemma run_outside_project `{Host} {W : Type} (h : handler W) (w : W)
    (inputs : CommandLineInputs) (options : CommandLineOptions) :
  exec h (run None inputs options) w =
  (Thrown (FatalException ("Cannot run " +:+ chalk_green "ionic ssl generate"
                             +:+ " outside a project directory.")),
   w, []).
Proof. reflexivity. Qed.

(** [preRun] does one thing: the inherited [checkForOpenSSL], whose body
    is in the base class. *)
Lemma preRun_only_checks_openssl `{Host} {W : Type} (h : handler W) (w : W)
    (inputs : CommandLineInputs) (options : CommandLineOptions) :
  exists a, (exec h (preRun inputs options) w).2 = [Ev CheckForOpenSSL a].
Proof.
  unfold preRun, await. cbn [exec].
  destruct (h unit CheckForOpenSSL w) as [[[]|e] w1]; eauto.
Qed.



(** ** The configuration file *)

Lemma run_written `{Host} {W : Type} (h : handler W) (w : W)
    (project : IProject) (inputs : CommandLineInputs) (options : CommandLineOptions) :
  let tr := (exec h (run (Some project) inputs options) w).2 in
  written tr = map (fun p => (p, config_text (run_cnf options))) (tmp_paths tr).
Proof. run_cases h; reflexivity. Qed.

(** What [writeConfig] does, for any configuration: once [tmpfilepath] has
    given a path, it calls [fsWriteFile] on that path with the rendered
    text and the utf8 encoding, and nothing else. *)
Lemma writeConfig_writes `{Host} {W : Type} (h : handler W) (w w1 : W)
    (c : OpenSSLConfig) (p : string) :
  h _ (Tmpfilepath "ionic-ssl") w = (Returned p, w1) ->
  exists o w2 a,
    exec h (writeConfig c) w =
    (o, w2,
     [Ev (Tmpfilepath "ionic-ssl") (Returned p);
      Ev (FsWriteFile p (config_text c) "utf8") a]) /\
    (a = Returned tt -> o = Returned p).
Proof.
  intros Htmp. unfold writeConfig, await, invoke. cbn [exec bind]. rewrite Htmp.
  cbn [exec bind].
  destruct (h _ (FsWriteFile p (config_text c) "utf8") w1) as [[[]|e] w2];
    cbn [exec]; eexists _, _, _; (split; [reflexivity|]); [reflexivity|discriminate].
Qed.

(** A run that returns has written the rendered text, once, at the path
    [tmpfilepath] gave. *)
Lemma run_returned_written `{Host} {W : Type} (h : handler W) (w : W)
    (project : IProject) (inputs : CommandLineInputs) (options : CommandLineOptions) :
  let res := exec h (run (Some project) inputs options) w in
  res.1.1 = Returned tt ->
  exists p, written res.2 = [(p, config_text (run_cnf options))] /\
            written_ok res.2 = [p] /\ tmp_paths res.2 = [p].
Proof.
  intros res. subst res.
  run_cases h; cbn [fst snd]; intros Hret; try discriminate Hret;
    eexists; cbn [written written_ok tmp_paths flat_map app ev_call];
    repeat split; reflexivity.
Qed.

(** C5: with bits 4096, country DE, state Bavaria, locality Munich,
    organization Acme and common name example.test the text written to the
    temporary file is the one below.  Line by line: under the [req] header
    come default_bits with 4096 and distinguished_name, under the
    [req_distinguished_name] header the five subject fields with their
    values verbatim, under the [SAN] header the line
    subjectAltName=DNS:example.test.  [writeConfig] hands this text to
    [fsWriteFile] at the path [tmpfilepath] gave; every write of a run
    carries it, and a run that returns has written it exactly once. *)
Theorem config_text_example `{Host} {W : Type} (h : handler W) (w : W)
    (project : IProject) (inputs : CommandLineInputs) :
  let options : CommandLineOptions :=
    <["bits" := OStr "4096"]> (<["country-name" := OStr "DE"]>
    (<["state-or-province-name" := OStr "Bavaria"]> (<["locality-name" := OStr "Munich"]>
    (<["organization-name" := OStr "Acme"]> (<["common-name" := OStr "example.test"]> ∅))))) in
  let text := config_text (run_cnf options) in
  let res := exec h (run (Some project) inputs options) w in
  let req := ["default_bits       = 4096"; "distinguished_name = req_distinguished_name"] in
  let req_distinguished_name :=
    ["countryName                = DE";
     "stateOrProvinceName        = Bavaria";
     "localityName               = Munich";
     "organizationName           = Acme";
     "commonName                 = example.test"] in
  let SAN := ["subjectAltName=DNS:example.test"] in
  text =
"[req]
default_bits       = 4096
distinguished_name = req_distinguished_name

[req_distinguished_name]
countryName                = DE
stateOrProvinceName        = Bavaria
localityName               = Munich
organizationName           = Acme
commonName                 = example.test

[SAN]
subjectAltName=DNS:example.test" /\
  lines text =
    "[req]" :: req ++
    "" :: "[req_distinguished_name]" :: req_distinguished_name ++
    "" :: "[SAN]" :: SAN /\
  written res.2 = map (fun p => (p, text)) (tmp_paths res.2) /\
  (forall w0 w1 p,
      h _ (Tmpfilepath "ionic-ssl") w0 = (Returned p, w1) ->
      exists o w2 a,
        exec h (writeConfig (run_cnf options)) w0 =
        (o, w2,
         [Ev (Tmpfilepath "ionic-ssl") (Returned p); Ev (FsWriteFile p text "utf8") a])) /\
  (res.1.1 = Returned tt ->
   exists p, written res.2 = [(p, text)] /\ written_ok res.2 = [p] /\ tmp_paths res.2 = [p]).
Proof.
  intros options text res req req_distinguished_name SAN.
  assert (Ht : text = config_text (mkOpenSSLConfig "4096" "DE" "Bavaria" "Munich" "Acme"
                                     "example.test")) by reflexivity.
  split; [rewrite Ht; vm_compute; reflexivity|].
  split; [rewrite Ht; vm_compute; reflexivity|].
  split; [apply run_written|]. split.
  - intros w0 w1 p Htmp.
    destruct (writeConfig_writes h w0 w1 (run_cnf options) p Htmp) as (o & w2 & a & Hrun & _).
    eauto.
  - apply run_returned_written.
Qed.

(** C5 on the demonstration machine, in an empty project: the run returns
    and the temporary file holds the text. *)
Lemma config_text_example_witness :
  let options : CommandLineOptions :=
    <["bits" := OStr "4096"]> (<["country-name" := OStr "DE"]>
    (<["state-or-province-name" := OStr "Bavaria"]> (<["locality-name" := OStr "Munich"]>
    (<["organization-name" := OStr "Acme"]> (<["common-name" := OStr "example.test"]> ∅))))) in
  let w := {| fs := ∅; operator := []; screen := [] |} in
  let res := @exec World unit (machine demo_machine)
               (@run plain_host (Some demo_project) [] options) w in
  let text :=
"[req]
default_bits       = 4096
distinguished_name = req_distinguished_name

[req_distinguished_name]
countryName                = DE
stateOrProvinceName        = Bavaria
localityName               = Munich
organizationName           = Acme
commonName                 = example.test

[SAN]
subjectAltName=DNS:example.test" in
  res.1.1 = Returned tt /\
  (exists p, written res.2 = [(p, text)] /\ written_ok res.2 = [p] /\ tmp_paths res.2 = [p]) /\
  fs res.1.2 !! "/tmp/ionic-ssl-0001" = Some (File text).
Proof.
  intros options w res text.
  assert (Hret : res.1.1 = Returned tt) by (vm_compute; reflexivity).
  split; [exact Hret|]. split.
  - destruct (@config_text_example plain_host World (machine demo_machine) w demo_project [])
      as (Htext & _ & _ & _ & Hwritten).
    destruct (Hwritten Hret) as (p & Hw & Hok & Htmp).
    exists p. split; [|split; assumption].
    etransitivity; [exact Hw|]. exact (f_equal (fun t => [(p, t)]) Htext).
  - vm_compute. reflexivity.
Defined.

(** ** Destination directories *)

(** C7: [run] begins with [ensureDirectory] on the directory of the key
    path and then on the directory of the certificate path.  For a
    directory that exists, [ensureDirectory] only looks: no creation is
    attempted and no message is emitted.  For a directory that is absent it
    calls [fsMkdirp] on it with mode 0o700 (octal 700 is 448) and, once
    that has returned, logs the message naming the directory.  In a whole
    run [fsMkdirp] is called on these two directories only, always with
    mode 0o700, and the messages logged are those of the directories
    created. *)
Theorem ensureDirectory_spec `{Host} {W : Type} (h : handler W) (w : W) (p : string) :
  (forall project inputs options,
      exists rest : prog unit,
        run (Some project) inputs options =
        (ensureDirectory (path.dirname (run_keyPath (Some project) options)) ;;
         ensureDirectory (path.dirname (run_certPath (Some project) options)) ;;
         rest)) /\
  mode_0o700 = 448%Z /\
  (forall w1,
      h _ (PathExists p) w = (Returned true, w1) ->
      exec h (ensureDirectory p) w = (Returned tt, w1, [Ev (PathExists p) (Returned true)])) /\
  (forall w1 w2,
      h _ (PathExists p) w = (Returned false, w1) ->
      h _ (FsMkdirp p mode_0o700) w1 = (Returned tt, w2) ->
      exists o w3 a,
        exec h (ensureDirectory p) w =
        (o, w3,
         [Ev (PathExists p) (Returned false);
          Ev (FsMkdirp p mode_0o700) (Returned tt);
          Ev (LogMsg ("Created " +:+ chalk_bold (prettyPath p) +:+ " directory for you.")) a])) /\
  (forall project inputs options,
      let keyPathDir := path.dirname (run_keyPath (Some project) options) in
      let certPathDir := path.dirname (run_certPath (Some project) options) in
      let tr := (exec h (run (Some project) inputs options) w).2 in
      Forall (fun dm => (dm.1 = keyPathDir \/ dm.1 = certPathDir) /\ dm.2 = mode_0o700)
        (mkdirps tr) /\
      log_msgs tr =
      map (fun d => "Created " +:+ chalk_bold (prettyPath d) +:+ " directory for you.")
        (created tr)).
Proof.
  split; [|split; [reflexivity|split; [|split]]]; cycle 3.
  - intros project inputs options keyPathDir certPathDir tr. subst tr keyPathDir certPathDir.
    run_cases h; cbn [mkdirps log_msgs created flat_map app map ev_call];
      (split; [|reflexivity]);
      repeat (constructor; [split; [first [left; reflexivity | right; reflexivity]
                                   |reflexivity]|]);
      constructor.
  - intros project inputs options. eexists. unfold run. reflexivity.
  - intros w1 E. unfold ensureDirectory, await, invoke. cbn [exec bind]. rewrite E. reflexivity.
  - intros w1 w2 E1 E2. unfold ensureDirectory, await, invoke. cbn [exec bind]. rewrite E1.
    cbn [exec bind negb]. rewrite E2.
    destruct (h _ (LogMsg ("Created " +:+ chalk_bold (prettyPath p) +:+ " directory for you.")) w2)
      as [[[]|e] w3]; cbn [exec]; eauto.
Qed.

(** C7 on the demonstration machine: [/home/dev/app] exists and
    [/home/dev/app/.ionic/ssl] does not. *)
Lemma ensureDirectory_spec_witness :
  let w := {| fs := {[ "/home/dev/app" := Dir 493 ]}; operator := []; screen := [] |} in
  let h := machine demo_machine in
  (h _ (PathExists "/home/dev/app") w = (Returned true, w) /\
   @exec World unit h (@ensureDirectory plain_host "/home/dev/app") w =
   (Returned tt, w, [Ev (PathExists "/home/dev/app") (Returned true)])) /\
  (h _ (PathExists "/home/dev/app/.ionic/ssl") w = (Returned false, w) /\
   exists w2,
     h _ (FsMkdirp "/home/dev/app/.ionic/ssl" mode_0o700) w = (Returned tt, w2) /\
     fs w2 !! "/home/dev/app/.ionic/ssl" = Some (Dir 448) /\
     exists o w3 a,
       @exec World unit h (@ensureDirectory plain_host "/home/dev/app/.ionic/ssl") w =
       (o, w3,
        [Ev (PathExists "/home/dev/app/.ionic/ssl") (Returned false);
         Ev (FsMkdirp "/home/dev/app/.ionic/ssl" mode_0o700) (Returned tt);
         Ev (LogMsg "Created /home/dev/app/.ionic/ssl directory for you.") a])).
Proof.
  intros w h. split.
  - split; [reflexivity|].
    apply (proj1 (proj2 (proj2 (@ensureDirectory_spec plain_host World h w "/home/dev/app")))).
    reflexivity.
  - split; [reflexivity|].
    eexists. split; [vm_compute; reflexivity|]. split; [vm_compute; reflexivity|].
    eapply (proj1 (proj2 (proj2 (proj2
              (@ensureDirectory_spec plain_host World h w "/home/dev/app/.ionic/ssl")))) w);
      vm_compute; reflexivity.
Defined.

(** ** Existing files *)

(** C10: the prompt of [checkExistingFile] reads
    Key <path> exists. Overwrite?  for whatever path it is given, the
    certificate path included.  The method never returns false: it returns
    true when the file exists and the operator confirms, returns undefined
    without a prompt when the file does not exist, and throws the fatal
    exception when the operator declines. *)
Theorem checkExistingFile_spec `{Host} {W : Type} (h : handler W) (w : W) (p : string) :
  let q := {| q_type := "confirm"; q_name := "confirm";
              q_message := "Key " +:+ chalk_bold (prettyPath p) +:+ " exists. Overwrite?" |} in
  (exec h (checkExistingFile p) w).1.1 <> Returned (Some false) /\
  (forall w1,
      h _ (PathExists p) w = (Returned false, w1) ->
      exec h (checkExistingFile p) w =
      (Returned None, w1, [Ev (PathExists p) (Returned false)])) /\
  (forall w1 w2,
      h _ (PathExists p) w = (Returned true, w1) ->
      h _ (Prompt q) w1 = (Returned true, w2) ->
      exec h (checkExistingFile p) w =
      (Returned (Some true), w2,
       [Ev (PathExists p) (Returned true); Ev (Prompt q) (Returned true)])) /\
  (forall w1 w2,
      h _ (PathExists p) w = (Returned true, w1) ->
      h _ (Prompt q) w1 = (Returned false, w2) ->
      exec h (checkExistingFile p) w =
      (Thrown (FatalException ("Not overwriting " +:+ chalk_bold (prettyPath p) +:+ ".")), w2,
       [Ev (PathExists p) (Returned true); Ev (Prompt q) (Returned false)])) /\
  (forall project inputs options,
      let tr := (exec h (run (Some project) inputs options) w).2 in
      Forall (fun m =>
                m.1 = "Key " +:+ chalk_bold (prettyPath (run_keyPath (Some project) options))
                        +:+ " exists. Overwrite?" \/
                m.1 = "Key " +:+ chalk_bold (prettyPath (run_certPath (Some project) options))
                        +:+ " exists. Overwrite?")
             (prompts tr)).
Proof.
  intros q. split; [|split; [|split; [|split]]].
  - unfold checkExistingFile, await. repeat (cbn [exec bind]; try answer h); discriminate.
  - intros w1 E. unfold checkExistingFile, await. cbn [exec bind]. rewrite E. reflexivity.
  - intros w1 w2 E1 E2. unfold checkExistingFile, await. cbn [exec bind].
    rewrite E1. cbn [exec bind]. fold q. rewrite E2. reflexivity.
  - intros w1 w2 E1 E2. unfold checkExistingFile, await. cbn [exec bind].
    rewrite E1. cbn [exec bind]. fold q. rewrite E2. reflexivity.
  - intros project inputs options tr. subst tr.
    run_cases h; cbn [prompts flat_map app];
      repeat (constructor; [first [left; reflexivity | right; reflexivity]|]);
      constructor.
Qed.

(** C10 on the demonstration machine, with the certificate path: the file
    is missing; it exists and the operator confirms; it exists and the
    operator declines. *)
Lemma checkExistingFile_spec_witness :
  let p := "/home/dev/app/.ionic/ssl/cert.pem" in
  let q := {| q_type := "confirm"; q_name := "confirm";
              q_message := "Key /home/dev/app/.ionic/ssl/cert.pem exists. Overwrite?" |} in
  let h := machine demo_machine in
  let w_none := {| fs := ∅; operator := [true]; screen := [] |} in
  let w_yes := {| fs := {[ p := File "old" ]}; operator := [true]; screen := [] |} in
  let w_no := {| fs := {[ p := File "old" ]}; operator := [false]; screen := [] |} in
  let asked := {| fs := {[ p := File "old" ]}; operator := []; screen := [] |} in
  (h _ (PathExists p) w_none = (Returned false, w_none) /\
   exec h (@checkExistingFile plain_host p) w_none =
   (Returned None, w_none, [Ev (PathExists p) (Returned false)])) /\
  (h _ (PathExists p) w_yes = (Returned true, w_yes) /\
   h _ (Prompt q) w_yes = (Returned true, asked) /\
   exec h (@checkExistingFile plain_host p) w_yes =
   (Returned (Some true), asked,
    [Ev (PathExists p) (Returned true); Ev (Prompt q) (Returned true)])) /\
  (h _ (PathExists p) w_no = (Returned true, w_no) /\
   h _ (Prompt q) w_no = (Returned false, asked) /\
   exec h (@checkExistingFile plain_host p) w_no =
   (Thrown (FatalException "Not overwriting /home/dev/app/.ionic/ssl/cert.pem."), asked,
    [Ev (PathExists p) (Returned true); Ev (Prompt q) (Returned false)])).
Proof.
  intros p q h w_none w_yes w_no asked.
  split; [|split].
  - split; [reflexivity|].
    apply (proj1 (proj2 (@checkExistingFile_spec plain_host World h w_none p))).
    reflexivity.
  - split; [reflexivity|]. split; [reflexivity|].
    apply (proj1 (proj2 (proj2 (@checkExistingFile_spec plain_host World h w_yes p))) w_yes);
      reflexivity.
  - split; [reflexivity|]. split; [reflexivity|].
    apply (proj1 (proj2 (proj2 (proj2 (@checkExistingFile_spec plain_host World h w_no p))))
             w_no); reflexivity.
Defined.

(** ** The subprocess *)

(** C3: the command starts a subprocess only for [openssl], with the
    argument list req -x509 -newkey rsa:<bits> -nodes -subj <subject>
    -reqexts SAN -extensions SAN -config <temp-config-path> -days 365
    -keyout <key-path> -out <cert-path> in that order, where bits and the
    two paths are the resolved option values and the configuration path is
    the temporary file just written.  It does so once for the written
    configuration file, hence at most once, and exactly once in a run that
    completes. *)
Theorem run_openssl_invocation `{Host} {W : Type} (h : handler W) (w : W)
    (project : IProject) (inputs : CommandLineInputs) (options : CommandLineOptions) :
  let keyPath := run_keyPath (Some project) options in
  let certPath := run_certPath (Some project) options in
  let cnf := run_cnf options in
  let res := exec h (run (Some project) inputs options) w in
  let invocation (cnfPath : string) :=
    ("openssl",
     ["req"; "-x509"; "-newkey"; "rsa:" +:+ bits cnf; "-nodes"; "-subj"; formatSubj cnf;
      "-reqexts"; "SAN"; "-extensions"; "SAN"; "-config"; cnfPath; "-days"; "365";
      "-keyout"; keyPath; "-out"; certPath]) in
  shell_calls res.2 = map invocation (written_ok res.2) /\
  (written_ok res.2 = [] \/ written_ok res.2 = tmp_paths res.2) /\
  length (shell_calls res.2) <= 1 /\
  (res.1.1 = Returned tt -> length (shell_calls res.2) = 1).
Proof.
  intros keyPath certPath cnf res invocation. subst res.
  run_cases h; cbn [shell_calls written_ok tmp_paths flat_map app map length fst snd ev_call];
    repeat split; try reflexivity; try lia; try discriminate;
    first [left; reflexivity | right; reflexivity].
Qed.

(** C3 on the demonstration machine: an empty key directory, no options. *)
Lemma run_openssl_invocation_witness :
  let w := {| fs := ∅; operator := []; screen := [] |} in
  let res := @exec World unit (machine demo_machine)
               (@run plain_host (Some demo_project) [] ∅) w in
  res.1.1 = Returned tt /\
  shell_calls res.2 =
  [("openssl",
    ["req"; "-x509"; "-newkey"; "rsa:2048"; "-nodes"; "-subj";
     "/C=US/ST=Wisconsin/L=Madison/O=Ionic/CN=localhost"; "-reqexts"; "SAN";
     "-extensions"; "SAN"; "-config"; "/tmp/ionic-ssl-0001"; "-days"; "365";
     "-keyout"; "/home/dev/app/.ionic/ssl/key.pem";
     "-out"; "/home/dev/app/.ionic/ssl/cert.pem"])] /\
  length (shell_calls res.2) = 1.
Proof.
  intros w res. split; [vm_compute; reflexivity|]. split; [vm_compute; reflexivity|].
  apply (proj2 (proj2 (proj2
           (@run_openssl_invocation plain_host World (machine demo_machine) w
              demo_project [] ∅)))).
  vm_compute; reflexivity.
Defined.

(** ** The temporary file stays *)

(** C8: on every path through the command, with or without a project,
    whatever the surroundings answer and wherever the run ends, no
    [fsUnlink] follows the [fsWriteFile] of [writeConfig]: what follows is
    the subprocess and logging only, and there is at most one write.  The
    command never deletes the temporary configuration file. *)
Theorem run_never_unlinks_config `{Host} {W : Type} (h : handler W) (w : W)
    (this_project : option IProject) (inputs : CommandLineInputs)
    (options : CommandLineOptions) :
  let tr := (exec h (run this_project inputs options) w).2 in
  unlinked (after_write tr) = [] /\
  forallb (fun e => is_shell e || is_log e) (after_write tr) = true /\
  length (written tr) <= 1.
Proof.
  intros tr. subst tr. destruct this_project as [project|].
  - run_cases h; cbn; repeat split; lia.
  - cbn. repeat split; lia.
Qed.

(** ** Paths *)

Lemma split_slash_nonempty (s : string) : split_slash s <> [].
Proof.
  induction s as [|c s IH]; simpl; [discriminate|].
  destruct (is_slash c); [discriminate|].
  destruct (split_slash s); [contradiction|discriminate].
Qed.

Lemma split_slash_app (s t : string) :
  split_slash (s +:+ "/" +:+ t) = split_slash s ++ split_slash t.
Proof.
  induction s as [|c s IH].
  - reflexivity.
  - rewrite append_cons. simpl. rewrite IH.
    destruct (is_slash c); [reflexivity|].
    pose proof (split_slash_nonempty s).
    destruct (split_slash s); [contradiction|reflexivity].
Qed.

Lemma split_slash_free (s : string) : slash_free s = true -> split_slash s = [s].
Proof.
  unfold slash_free. induction s as [|c s IH]; simpl; [reflexivity|].
  intros [Hc Hs]%andb_true_iff. apply negb_true_iff in Hc. rewrite Hc, (IH Hs).
  reflexivity.
Qed.

Lemma split_slash_segments (s : string) :
  Forall (fun seg => slash_free seg = true) (split_slash s).
Proof.
  induction s as [|c s IH]; simpl.
  - repeat constructor.
  - destruct (is_slash c) eqn:Hc.
    + constructor; [reflexivity|assumption].
    + destruct (split_slash s) as [|seg rest]; [repeat constructor; simpl; unfold slash_free;
        simpl; rewrite Hc; reflexivity|].
      inversion IH as [|? ? Hseg Hrest]; subst. constructor; [|assumption].
      unfold slash_free in *. simpl. rewrite Hc, Hseg. reflexivity.
Qed.

Lemma clean_slash_free (s : string) : clean s = true -> slash_free s = true.
Proof. unfold clean. intros Hc. repeat (apply andb_true_iff in Hc as [Hc ?]). exact Hc. Qed.

Lemma split_join (segs : list string) :
  segs <> [] ->
  Forall (fun seg => clean seg = true) segs ->
  split_slash (join_slash segs) = segs.
Proof.
  induction segs as [|a [|b rest] IH]; intros Hne Hall; [contradiction| |].
  - inversion Hall; subst. simpl. apply split_slash_free, clean_slash_free. assumption.
  - inversion Hall as [|? ? Ha Hrest]; subst.
    change (join_slash (a :: b :: rest)) with (a +:+ "/" +:+ join_slash (b :: rest)).
    rewrite split_slash_app, IH by (assumption || discriminate).
    rewrite split_slash_free by (apply clean_slash_free; assumption). reflexivity.
Qed.

Lemma normalize_step_clean (allow : bool) (stack : list string) (seg : string) :
  clean seg = true -> path.normalize_step allow stack seg = seg :: stack.
Proof.
  unfold clean, nonempty, path.normalize_step. intros Hc.
  repeat (apply andb_true_iff in Hc as [Hc ?]).
  repeat match goal with
         | Hn : negb _ = true |- _ => apply negb_true_iff in Hn; rewrite Hn
         end.
  reflexivity.
Qed.

Lemma normalize_fold_clean (allow : bool) (segs stack : list string) :
  Forall (fun seg => clean seg = true) segs ->
  fold_left (path.normalize_step allow) segs stack = rev segs ++ stack.
Proof.
  revert stack. induction segs as [|a segs IH]; intros stack Hall; [reflexivity|].
  inversion Hall; subst. simpl.
  rewrite normalize_step_clean, IH by assumption.
  rewrite <- app_assoc. reflexivity.
Qed.

(** Below the root the kept segments are all clean. *)
Lemma normalize_fold_invariant (segs stack : list string) :
  Forall (fun seg => slash_free seg = true) segs ->
  Forall (fun seg => clean seg = true) stack ->
  Forall (fun seg => clean seg = true) (fold_left (path.normalize_step false) segs stack).
Proof.
  revert stack. induction segs as [|a segs IH]; intros stack Hfree Hstack; [assumption|].
  inversion Hfree as [|? ? Ha Hrest]; subst. simpl. apply IH; [assumption|].
  unfold path.normalize_step.
  destruct (String.eqb a "") eqn:E1; [assumption|].
  destruct (String.eqb a ".") eqn:E2; [assumption|].
  destruct (String.eqb a "..") eqn:E3.
  - destruct stack as [|top rest]; [constructor|].
    inversion Hstack; subst.
    destruct (String.eqb top ".."); assumption.
  - constructor; [|assumption].
    unfold clean, nonempty. rewrite Ha, E1, E2, E3. reflexivity.
Qed.

Lemma normalizeString_absolute_idem (p : string) :
  let n := path.normalizeString p false in
  path.normalizeString (("/" +:+ n) +:+ "/" +:+ "") false = n.
Proof.
  intros n. subst n. unfold path.normalizeString.
  set (stack := fold_left (path.normalize_step false) (split_slash p) []).
  assert (Hclean : Forall (fun seg => clean seg = true) (rev stack)).
  { apply Forall_rev, normalize_fold_invariant; [apply split_slash_segments|constructor]. }
  rewrite split_slash_app.
  change (split_slash ("/" +:+ join_slash (rev stack)))
    with ("" :: split_slash (join_slash (rev stack))).
  destruct (rev stack) as [|a segs] eqn:Hrev.
  - reflexivity.
  - rewrite split_join by (assumption || discriminate).
    change (("" :: a :: segs) ++ split_slash "") with ("" :: (a :: segs) ++ [""]).
    cbn [fold_left]. change (path.normalize_step false [] "") with (@nil string).
    rewrite fold_left_app, (normalize_fold_clean false (a :: segs)) by assumption.
    cbn [fold_left]. change (path.normalize_step false ?s "") with s.
    rewrite app_nil_r, rev_involutive. reflexivity.
Qed.

Section Resolve.
Context `{Host}.

Lemma resolve_loop_reaches_cwd (l : list string) (acc : string) :
  exists rp, path.resolve_loop (l ++ [cwd]) acc = (rp, true).
Proof.
  pose proof cwd_absolute as Habs.
  revert acc. induction l as [|a l IH]; intros acc; simpl.
  - destruct cwd as [|c s] eqn:Hcwd; [discriminate|].
    simpl in Habs. simpl. rewrite Habs. eauto.
  - destruct (String.eqb a ""); [apply IH|].
    destruct (starts_with_slash a); [eauto|apply IH].
Qed.

Lemma resolve_normal_form (args : list string) :
  exists rp, path.resolve cwd args = "/" +:+ path.normalizeString rp false.
Proof.
  unfold path.resolve.
  destruct (resolve_loop_reaches_cwd (rev args) "") as [rp Hrp].
  rewrite Hrp. exists rp. reflexivity.
Qed.

(** What [path.resolve] returns is absolute. *)
Lemma resolve_absolute (args : list string) :
  starts_with_slash (path.resolve cwd args) = true.
Proof. destruct (resolve_normal_form args) as [rp ->]. reflexivity. Qed.

(** Resolving a resolved path changes nothing. *)
Lemma resolve_idem (args : list string) :
  path.resolve cwd [path.resolve cwd args] = path.resolve cwd args.
Proof.
  destruct (resolve_normal_form args) as [rp ->].
  unfold path.resolve at 1. cbn [rev app path.resolve_loop].
  change (String.eqb ("/" +:+ path.normalizeString rp false) "") with false.
  change (starts_with_slash ("/" +:+ path.normalizeString rp false)) with true.
  cbv iota beta. cbn [negb].
  rewrite (normalizeString_absolute_idem rp). reflexivity.
Qed.

End Resolve.

(** ** Option resolution *)

Lemma opt_get_insert (options : CommandLineOptions) (k : string) (v : CommandLineOption) :
  opt_get (<[k := v]> options) k = v.
Proof. unfold opt_get. rewrite lookup_insert_eq. reflexivity. Qed.

Lemma opt_get_delete (options : CommandLineOptions) (k : string) :
  opt_get (delete k options) k = OUndefined.
Proof. unfold opt_get. rewrite lookup_delete_eq. reflexivity. Qed.

Lemma opt_get_other (options : CommandLineOptions) (k k' : string) (v : CommandLineOption) :
  k <> k' -> opt_get (<[k := v]> options) k' = opt_get (delete k options) k'.
Proof.
  intros Hne. unfold opt_get. rewrite lookup_insert_ne, lookup_delete_ne by assumption.
  reflexivity.
Qed.

(** The idiom [options[k'] ? f(String(options[k'])) : d] cannot tell a falsy
    value under [k] from a missing [k]. *)
Lemma falsy_choice {A : Type} (options : CommandLineOptions) (k k' : string)
    (v : CommandLineOption) (f : string -> A) (d : A) :
  truthy v = false ->
  (if truthy (opt_get (<[k := v]> options) k')
   then f (js_String (opt_get (<[k := v]> options) k')) else d) =
  (if truthy (opt_get (delete k options) k')
   then f (js_String (opt_get (delete k options) k')) else d).
Proof.
  intros Hv. destruct (decide (k = k')) as [->|Hne].
  - rewrite opt_get_insert, opt_get_delete, Hv. reflexivity.
  - rewrite (opt_get_other _ _ _ _ Hne). reflexivity.
Qed.

Lemma opt_or_falsy (options : CommandLineOptions) (k k' : string)
    (v : CommandLineOption) (d : string) :
  truthy v = false -> opt_or (<[k := v]> options) k' d = opt_or (delete k options) k' d.
Proof. intros Hv. unfold opt_or. apply (falsy_choice options k k' v (fun s => s) d Hv). Qed.

Lemma opt_or_lookup (options : CommandLineOptions) (k d : string) :
  opt_or options k d =
  match options !! k with
  | Some v => if truthy v then js_String v else d
  | None => d
  end.
Proof. unfold opt_or, opt_get. destruct (options !! k); reflexivity. Qed.

Section Resolution.
Context `{Host}.

Lemma getDefaultKeyPath_resolved (this_project : option IProject) :
  path.resolve cwd [getDefaultKeyPath this_project] = getDefaultKeyPath this_project.
Proof. apply resolve_idem. Qed.

Lemma getDefaultCertPath_resolved (this_project : option IProject) :
  path.resolve cwd [getDefaultCertPath this_project] = getDefaultCertPath this_project.
Proof. apply resolve_idem. Qed.

Lemma run_keyPath_lookup (this_project : option IProject) (options : CommandLineOptions) :
  run_keyPath this_project options =
  match options !! "key-path" with
  | Some v => if truthy v then path.resolve cwd [js_String v]
              else getDefaultKeyPath this_project
  | None => getDefaultKeyPath this_project
  end.
Proof.
  unfold run_keyPath, opt_get.
  destruct (options !! "key-path") as [v|]; cbn [default from_option id truthy];
    [destruct (truthy v); [reflexivity|]|]; apply getDefaultKeyPath_resolved.
Qed.

Lemma run_certPath_lookup (this_project : option IProject) (options : CommandLineOptions) :
  run_certPath this_project options =
  match options !! "cert-path" with
  | Some v => if truthy v then path.resolve cwd [js_String v]
              else getDefaultCertPath this_project
  | None => getDefaultCertPath this_project
  end.
Proof.
  unfold run_certPath, opt_get.
  destruct (options !! "cert-path") as [v|]; cbn [default from_option id truthy];
    [destruct (truthy v); [reflexivity|]|]; apply getDefaultCertPath_resolved.
Qed.

(** C6, as the code has it: each of the six subject and key-size values
    is the supplied option converted to text when the supplied value is
    truthy, and otherwise (option absent, or supplied with a falsy value)
    its documented default: bits 2048, countryName US,
    stateOrProvinceName Wisconsin, localityName Madison,
    organizationName Ionic, commonName localhost.  The key and
    certificate paths are the supplied option made absolute when it is
    truthy, and otherwise the absolute paths of
    <project-root>/.ionic/ssl/key.pem and <project-root>/.ionic/ssl/cert.pem.
    Both paths are absolute in every case. *)
Theorem run_resolves_options (project : IProject) (options : CommandLineOptions) :
  let text_or (k d : string) : string :=
    match options !! k with
    | Some v => if truthy v then js_String v else d
    | None => d
    end in
  let path_or (k file : string) : string :=
    match options !! k with
    | Some v => if truthy v then path.resolve cwd [js_String v]
                else path.resolve cwd [directory project; file]
    | None => path.resolve cwd [directory project; file]
    end in
  let cnf := run_cnf options in
  bits cnf = text_or "bits" "2048" /\
  countryName cnf = text_or "country-name" "US" /\
  stateOrProvinceName cnf = text_or "state-or-province-name" "Wisconsin" /\
  localityName cnf = text_or "locality-name" "Madison" /\
  organizationName cnf = text_or "organization-name" "Ionic" /\
  commonName cnf = text_or "common-name" "localhost" /\
  run_keyPath (Some project) options = path_or "key-path" ".ionic/ssl/key.pem" /\
  run_certPath (Some project) options = path_or "cert-path" ".ionic/ssl/cert.pem" /\
  starts_with_slash (run_keyPath (Some project) options) = true /\
  starts_with_slash (run_certPath (Some project) options) = true.
Proof.
  intros text_or path_or cnf. subst cnf. cbn [run_cnf bits countryName
    stateOrProvinceName localityName organizationName commonName].
  repeat (split; [apply opt_or_lookup|]).
  split; [apply run_keyPath_lookup|]. split; [apply run_certPath_lookup|].
  split; apply resolve_absolute.
Qed.

(** C9: a falsy value supplied for an option is treated exactly as if the
    option were absent.  The whole body of [run] is the same for the two
    option bags, whichever key holds the falsy value; in particular each
    of bits, country-name, state-or-province-name, locality-name,
    organization-name, common-name, key-path and cert-path then resolves
    to its documented default. *)
Theorem falsy_option_is_absent (v : CommandLineOption) (Hv : truthy v = false)
    (this_project : option IProject) (project : IProject)
    (inputs : CommandLineInputs) (options : CommandLineOptions) (k : string) :
  run this_project inputs (<[k := v]> options) = run this_project inputs (delete k options) /\
  run_cnf (<[k := v]> options) = run_cnf (delete k options) /\
  run_keyPath this_project (<[k := v]> options) = run_keyPath this_project (delete k options) /\
  run_certPath this_project (<[k := v]> options)
    = run_certPath this_project (delete k options) /\
  bits (run_cnf (<["bits" := v]> options)) = "2048" /\
  countryName (run_cnf (<["country-name" := v]> options)) = "US" /\
  stateOrProvinceName (run_cnf (<["state-or-province-name" := v]> options)) = "Wisconsin" /\
  localityName (run_cnf (<["locality-name" := v]> options)) = "Madison" /\
  organizationName (run_cnf (<["organization-name" := v]> options)) = "Ionic" /\
  commonName (run_cnf (<["common-name" := v]> options)) = "localhost" /\
  run_keyPath (Some project) (<["key-path" := v]> options)
    = path.resolve cwd [directory project; ".ionic/ssl/key.pem"] /\
  run_certPath (Some project) (<["cert-path" := v]> options)
    = path.resolve cwd [directory project; ".ionic/ssl/cert.pem"].
Proof.
  assert (Hcnf : run_cnf (<[k := v]> options) = run_cnf (delete k options)).
  { unfold run_cnf. rewrite !(opt_or_falsy options k _ v _ Hv). reflexivity. }
  assert (Hkey : run_keyPath this_project (<[k := v]> options)
                 = run_keyPath this_project (delete k options)).
  { unfold run_keyPath. f_equal. f_equal.
    apply (falsy_choice options k "key-path" v (fun s => s) _ Hv). }
  assert (Hcert : run_certPath this_project (<[k := v]> options)
                  = run_certPath this_project (delete k options)).
  { unfold run_certPath. f_equal. f_equal.
    apply (falsy_choice options k "cert-path" v (fun s => s) _ Hv). }
  split; [|split; [exact Hcnf|split; [exact Hkey|split; [exact Hcert|]]]].
  - unfold run. rewrite Hcnf, Hkey, Hcert. reflexivity.
  - cbn [run_cnf bits countryName stateOrProvinceName localityName organizationName
           commonName].
    unfold opt_or. rewrite !opt_get_insert, Hv.
    repeat (split; [reflexivity|]).
    rewrite run_keyPath_lookup, run_certPath_lookup, !lookup_insert_eq, Hv.
    split; reflexivity.
Qed.

End Resolution.

(** C6 as stated fails on a supplied empty string: the option is present,
    its text is the empty string, and the resolved value is the default. *)
Lemma supplied_empty_bits_resolve_to_default :
  let options : CommandLineOptions := {[ "bits" := OStr "" ]} in
  options !! "bits" = Some (OStr "") /\
  js_String (OStr "") = "" /\
  bits (run_cnf options) = "2048" /\
  bits (run_cnf options) <> js_String (OStr "").
Proof. vm_compute. repeat split; discriminate. Qed.

(** C9 at the empty string, for [--bits] and for [--key-path]. *)
Lemma falsy_option_is_absent_witness :
  truthy (OStr "") = false /\
  @run plain_host (Some demo_project) [] (<["bits" := OStr ""]> ∅)
    = @run plain_host (Some demo_project) [] (delete "bits" ∅) /\
  bits (run_cnf (<["bits" := OStr ""]> ∅)) = "2048" /\
  @run_keyPath plain_host (Some demo_project) (<["key-path" := OStr ""]> ∅)
    = "/home/dev/app/.ionic/ssl/key.pem".
Proof.
  split; [reflexivity|].
  pose proof (@falsy_option_is_absent plain_host (OStr "") eq_refl (Some demo_project)
                demo_project [] ∅) as Hall.
  split; [exact (proj1 (Hall "bits"))|].
  split; [exact (proj1 (proj2 (proj2 (proj2 (proj2 (Hall "bits")))))) |].
  destruct (Hall "key-path") as (_ & _ & _ & _ & _ & _ & _ & _ & _ & _ & Hkey & _).
  rewrite Hkey. vm_compute. reflexivity.
Defined.

(** ** Observations on a joined trace *)

Lemma unlinked_app (tr1 tr2 : list event) : unlinked (tr1 ++ tr2) = unlinked tr1 ++ unlinked tr2.
Proof. apply flat_map_app. Qed.

Lemma prompts_app (tr1 tr2 : list event) : prompts (tr1 ++ tr2) = prompts tr1 ++ prompts tr2.
Proof. apply flat_map_app. Qed.

Lemma written_app (tr1 tr2 : list event) : written (tr1 ++ tr2) = written tr1 ++ written tr2.
Proof. apply flat_map_app. Qed.

Lemma shell_calls_app (tr1 tr2 : list event) :
  shell_calls (tr1 ++ tr2) = shell_calls tr1 ++ shell_calls tr2.
Proof. apply flat_map_app. Qed.

Lemma harmless_trace (tr : list event) :
  forallb harmless tr = true ->
  unlinked tr = [] /\ written tr = [] /\ shell_calls tr = [].
Proof.
  induction tr as [|[X c a] tr IH]; [repeat split|].
  cbn [forallb]. intros [Hc Htr]%andb_true_iff.
  destruct (IH Htr) as (Hu & Hw & Hs).
  unfold unlinked, written, shell_calls in *. cbn [flat_map ev_call].
  rewrite Hu, Hw, Hs.
  destruct c; try discriminate Hc; repeat split.
Qed.

(** ** The machine keeps what it is not asked to remove *)

Lemma mkdirp_all_keeps (dirs : list string) (mode : Z) (f f' : gmap string node)
    (o : outcome unit) :
  mkdirp_all dirs mode f = (o, f') ->
  forall p n, f !! p = Some n -> f' !! p = Some n.
Proof.
  revert f. induction dirs as [|d dirs IH]; intros f Hrun p n Hp; simpl in Hrun.
  - congruence.
  - destruct (f !! d) as [[content|dmode]|] eqn:Hd.
    + congruence.
    + eapply IH; eassumption.
    + eapply IH; [eassumption|].
      rewrite lookup_insert_ne; [assumption|]. intros ->. congruence.
Qed.

Lemma machine_keeps (m : Machine) {X : Type} (c : call X) (w w' : World) (a : outcome X) :
  machine m X c w = (a, w') ->
  harmless (Ev c a) = true ->
  forall p n, fs w !! p = Some n -> fs w' !! p = Some n.
Proof.
  intros Hstep Hc p n Hp.
  destruct c; try discriminate Hc; cbn in Hstep.
  - congruence.
  - destruct (mkdirp_all (ancestors p0) mode (fs w)) as [o f'] eqn:Hmk.
    inversion Hstep; subst. cbn. eapply mkdirp_all_keeps; eassumption.
  - congruence.
  - destruct (operator w); inversion Hstep; subst; assumption.
  - inversion Hstep; subst; assumption.
  - inversion Hstep; subst; assumption.
  - inversion Hstep; subst; assumption.
  - inversion Hstep; subst; assumption.
  - destruct (openssl_installed m); inversion Hstep; subst; assumption.
Qed.

(** By induction on the body: a run that made harmless calls only has
    kept every entry of the filesystem. *)
Lemma exec_harmless_keeps (m : Machine) {A : Type} (body : prog A) (w : World) :
  forallb harmless (exec (machine m) body w).2 = true ->
  forall p n, fs w !! p = Some n -> fs (exec (machine m) body w).1.2 !! p = Some n.
Proof.
  revert w. induction body as [a|e|X c k IH]; intros w; cbn [exec]; [auto..|].
  destruct (machine m X c w) as [[x|e] w1] eqn:Hstep.
  - specialize (IH x w1).
    destruct (exec (machine m) (k x) w1) as [[o w2] tr]. cbn in *.
    intros [Hc Htr]%andb_true_iff p n Hp.
    apply IH; [assumption|].
    eapply (machine_keeps m c w w1 (Returned x)); eauto.
  - cbn. intros Hc p n Hp. rewrite andb_true_r in Hc.
    eapply (machine_keeps m c w w1 (Thrown e)); eauto.
Qed.

(** ** Overwriting needs both confirmations *)

Ltac stopped_early Hh Hp :=
  let Hu := fresh "Hu" in
  destruct (harmless_trace _ Hh) as (Hu & _ & _);
  split;
  [ let Hne := fresh in intros Hne; rewrite Hu in Hne; contradiction
  | let Hin := fresh in intros ? Hin; rewrite Hp in Hin; destruct Hin ].

Ltac observe_with Hu1 Hu2 Hp1 Hp2 Hw1 Hw2 Hs1 Hs2 :=
  cbn [fst snd];
  rewrite ?unlinked_app, ?prompts_app, ?written_app, ?shell_calls_app,
    ?Hu1, ?Hu2, ?Hp1, ?Hp2, ?Hw1, ?Hw2, ?Hs1, ?Hs2;
  cbn [unlinked prompts written shell_calls flat_map app ev_call fst snd fs].

Section Overwrite.
Context `{Host}.

Lemma ensureDirectory_harmless {W : Type} (h : handler W) (w : W) (p : string) :
  forallb harmless (exec h (ensureDirectory p) w).2 = true /\
  prompts (exec h (ensureDirectory p) w).2 = [].
Proof.
  unfold ensureDirectory, await, invoke.
  repeat (cbn [exec bind negb]; try answer h); split; reflexivity.
Qed.

Lemma checkExistingFile_machine (m : Machine) (w : World) (p : string) (n : node) :
  fs w !! p = Some n ->
  let q := {| q_type := "confirm"; q_name := "confirm";
              q_message := "Key " +:+ chalk_bold (prettyPath p) +:+ " exists. Overwrite?" |} in
  exec (machine m) (checkExistingFile p) w =
  match operator w with
  | [] =>
      (Thrown (Rejected "prompt closed"), w,
       [Ev (PathExists p) (Returned true); Ev (Prompt q) (Thrown (Rejected "prompt closed"))])
  | true :: rest =>
      (Returned (Some true), {| fs := fs w; operator := rest; screen := screen w |},
       [Ev (PathExists p) (Returned true); Ev (Prompt q) (Returned true)])
  | false :: rest =>
      (Thrown (FatalException ("Not overwriting " +:+ chalk_bold (prettyPath p) +:+ ".")),
       {| fs := fs w; operator := rest; screen := screen w |},
       [Ev (PathExists p) (Returned true); Ev (Prompt q) (Returned false)])
  end.
Proof.
  intros Hp q. unfold checkExistingFile, await. cbn [exec bind machine].
  rewrite Hp. cbn [exec bind machine]. destruct (operator w) as [|[] rest]; reflexivity.
Qed.

(** C1: on a machine where the key file and the certificate file both
    exist, [fsUnlink] is called only in a run whose two overwrite prompts
    were both answered yes.  When the operator declines a prompt (the
    first, or the second after accepting the first) the command fails
    with the fatal "Not overwriting" error, no file has been unlinked or
    written, no subprocess has run, and the key file and the certificate
    file are in the filesystem as they were. *)
Theorem overwrite_needs_both_confirmations (m : Machine) (w : World)
    (project : IProject) (inputs : CommandLineInputs) (options : CommandLineOptions)
    (nk nc : node) :
  let keyPath := run_keyPath (Some project) options in
  let certPath := run_certPath (Some project) options in
  let ask p := "Key " +:+ chalk_bold (prettyPath p) +:+ " exists. Overwrite?" in
  let refusal p := FatalException ("Not overwriting " +:+ chalk_bold (prettyPath p) +:+ ".") in
  fs w !! keyPath = Some nk ->
  fs w !! certPath = Some nc ->
  let res := exec (machine m) (run (Some project) inputs options) w in
  (unlinked res.2 <> [] ->
   prompts res.2 = [(ask keyPath, Returned true); (ask certPath, Returned true)]) /\
  (forall msg, In (msg, Returned false) (prompts res.2) ->
     (res.1.1 = Thrown (refusal keyPath) \/ res.1.1 = Thrown (refusal certPath)) /\
     unlinked res.2 = [] /\ written res.2 = [] /\ shell_calls res.2 = [] /\
     fs res.1.2 !! keyPath = Some nk /\ fs res.1.2 !! certPath = Some nc).
Proof.
  intros keyPath certPath ask refusal Hk Hc res. subst res.
  unfold run. fold keyPath certPath.
  set (keyDir := path.dirname keyPath). set (certDir := path.dirname certPath).
  (* the directory of the key *)
  rewrite exec_bind.
  pose proof (ensureDirectory_harmless (machine m) w keyDir) as [Hh1 Hp1].
  pose proof (exec_harmless_keeps m (ensureDirectory keyDir) w Hh1) as Hkeep1.
  destruct (exec (machine m) (ensureDirectory keyDir) w) as [[[[]|e1] w1] tr1];
    cbn [fst snd] in *; [|stopped_early Hh1 Hp1].
  (* the directory of the certificate *)
  rewrite exec_bind.
  pose proof (ensureDirectory_harmless (machine m) w1 certDir) as [Hh2 Hp2].
  pose proof (exec_harmless_keeps m (ensureDirectory certDir) w1 Hh2) as Hkeep2.
  destruct (exec (machine m) (ensureDirectory certDir) w1) as [[[[]|e2] w2] tr2];
    cbn [fst snd] in *.
  2:{ assert (Hh : forallb harmless (tr1 ++ tr2) = true)
        by (rewrite forallb_app, Hh1, Hh2; reflexivity).
      assert (Hp : prompts (tr1 ++ tr2) = []) by (rewrite prompts_app, Hp1, Hp2; reflexivity).
      stopped_early Hh Hp. }
  assert (Hk2 : fs w2 !! keyPath = Some nk) by auto.
  assert (Hc2 : fs w2 !! certPath = Some nc) by auto.
  destruct (harmless_trace _ Hh1) as (Hu1 & Hw1 & Hs1).
  destruct (harmless_trace _ Hh2) as (Hu2 & Hw2 & Hs2).
  (* the key file *)
  rewrite exec_bind, (checkExistingFile_machine m w2 keyPath nk Hk2).
  destruct (operator w2) as [|[] answers] eqn:Hop.
  { observe_with Hu1 Hu2 Hp1 Hp2 Hw1 Hw2 Hs1 Hs2.
    split; [intros Hne; congruence|intros msg [Hin|[]]; discriminate]. }
  2:{ observe_with Hu1 Hu2 Hp1 Hp2 Hw1 Hw2 Hs1 Hs2.
      split; [intros Hne; congruence|intros msg Hin; auto 10]. }
  (* the certificate file *)
  set (w3 := {| fs := fs w2; operator := answers; screen := screen w2 |}).
  rewrite exec_bind, (checkExistingFile_machine m w3 certPath nc Hc2).
  cbn [operator w3].
  destruct answers as [|[] answers'].
  { observe_with Hu1 Hu2 Hp1 Hp2 Hw1 Hw2 Hs1 Hs2.
    split; [intros Hne; congruence|intros msg [Hin|[Hin|[]]]; discriminate]. }
  2:{ observe_with Hu1 Hu2 Hp1 Hp2 Hw1 Hw2 Hs1 Hs2.
      split; [intros Hne; congruence|intros msg Hin; auto 10]. }
  (* both confirmed: what follows asks nothing more *)
  match goal with
  | |- context [exec (machine m) ?body ?w4] =>
      assert (Htail : prompts (exec (machine m) body w4).2 = [])
        by (unfold writeConfig, await, invoke;
            repeat (cbn [exec bind from_option id]; try answer (machine m)); reflexivity);
      destruct (exec (machine m) body w4) as [[o4 w5] tr4]
  end.
  cbn [fst snd] in *. rewrite !prompts_app, Hp1, Hp2, Htail. cbn [prompts flat_map app].
  split; [reflexivity|intros msg [Hin|[Hin|[]]]; discriminate].
Qed.
End Overwrite.

(** C1 on the demonstration machine, both files present: the operator
    accepts the first prompt and declines the second; and the operator
    accepts both. *)
Lemma overwrite_needs_both_confirmations_witness :
  let key := "/home/dev/app/.ionic/ssl/key.pem" in
  let cert := "/home/dev/app/.ionic/ssl/cert.pem" in
  let disk : gmap string node :=
    <[key := File "old key"]> (<[cert := File "old cert"]>
      {[ "/home/dev/app/.ionic/ssl" := Dir 448 ]}) in
  let command := @run plain_host (Some demo_project) [] ∅ in
  let declined :=
    exec (machine demo_machine) command
      {| fs := disk; operator := [true; false]; screen := [] |} in
  let accepted :=
    exec (machine demo_machine) command
      {| fs := disk; operator := [true; true]; screen := [] |} in
  (disk !! key = Some (File "old key") /\ disk !! cert = Some (File "old cert")) /\
  (In ("Key /home/dev/app/.ionic/ssl/cert.pem exists. Overwrite?", Returned false)
      (prompts declined.2) /\
   (declined.1.1
      = Thrown (FatalException "Not overwriting /home/dev/app/.ionic/ssl/key.pem.") \/
    declined.1.1
      = Thrown (FatalException "Not overwriting /home/dev/app/.ionic/ssl/cert.pem.")) /\
   unlinked declined.2 = [] /\ written declined.2 = [] /\ shell_calls declined.2 = [] /\
   fs declined.1.2 !! key = Some (File "old key") /\
   fs declined.1.2 !! cert = Some (File "old cert")) /\
  (unlinked accepted.2 <> [] /\
   prompts accepted.2 =
   [("Key /home/dev/app/.ionic/ssl/key.pem exists. Overwrite?", Returned true);
    ("Key /home/dev/app/.ionic/ssl/cert.pem exists. Overwrite?", Returned true)]).
Proof.
  intros key cert disk command declined accepted.
  assert (Hk : disk !! key = Some (File "old key")) by (vm_compute; reflexivity).
  assert (Hc : disk !! cert = Some (File "old cert")) by (vm_compute; reflexivity).
  split; [split; assumption|]. split.
  - assert (Hin : In ("Key /home/dev/app/.ionic/ssl/cert.pem exists. Overwrite?",
                      Returned false) (prompts declined.2))
      by (vm_compute; right; left; reflexivity).
    split; [exact Hin|].
    exact (proj2 (@overwrite_needs_both_confirmations plain_host demo_machine
                    {| fs := disk; operator := [true; false]; screen := [] |}
                    demo_project [] ∅ (File "old key") (File "old cert") Hk Hc) _ Hin).
  - assert (Hne : unlinked accepted.2 <> []) by (vm_compute; discriminate).
    split; [exact Hne|].
    exact (proj1 (@overwrite_needs_both_confirmations plain_host demo_machine
                    {| fs := disk; operator := [true; true]; screen := [] |}
                    demo_project [] ∅ (File "old key") (File "old cert") Hk Hc) Hne).
Defined.

(** * Further properties of the command *)

Ltac one_of_these :=
  solve [ repeat first [ reflexivity | left; reflexivity | right ] ].

(** ** The order of the calls *)

Lemma dirname_absolute (p : string) :
  starts_with_slash p = true -> starts_with_slash (path.dirname p) = true.
Proof.
  destruct p as [|c body]; [discriminate|]. cbn [starts_with_slash]. intros Hc.
  unfold path.dirname. rewrite Hc.
  destruct (path.drop_while _ _) as [|a [|b kept]]; cbn [starts_with_slash]; auto.
Qed.

Section Phases.
Context `{Host}.

(** X1: the calls of a run come in phases, whatever the surroundings
    answer: no directory is created once a prompt has been shown, no
    prompt is shown once a file has been unlinked, the filesystem is not
    checked, extended or unlinked once the configuration has been written,
    and after the subprocess only the logger is called. *)
Theorem run_phases {W : Type} (h : handler W) (w : W)
    (this_project : option IProject) (inputs : CommandLineInputs)
    (options : CommandLineOptions) :
  let tr := (exec h (run this_project inputs options) w).2 in
  mkdirps (after is_prompt tr) = [] /\
  prompts (after is_unlink tr) = [] /\
  fs_paths (after is_write tr) = [] /\
  forallb is_log (after is_shell tr) = true.
Proof.
  intros tr. subst tr. destruct this_project as [project|]; [|repeat split].
  run_cases h; cbn; repeat split.
Qed.

(** X2: a run unlinks nothing but the key path and the certificate path,
    the key first and never more than two unlinks in all; when it unlinks
    anything, every prompt it showed was answered yes; and it never unlinks
    more files than it showed prompts.  When the two paths differ no path
    is unlinked twice; when both options name one file, that file can be
    handed to [fsUnlink] twice. *)
Theorem run_unlinks {W : Type} (h : handler W) (w : W)
    (project : IProject) (inputs : CommandLineInputs) (options : CommandLineOptions) :
  let keyPath := run_keyPath (Some project) options in
  let certPath := run_certPath (Some project) options in
  let tr := (exec h (run (Some project) inputs options) w).2 in
  (unlinked tr = [] \/ unlinked tr = [keyPath] \/ unlinked tr = [certPath] \/
   unlinked tr = [keyPath; certPath]) /\
  (unlinked tr = [] \/ Forall (fun m => m.2 = Returned true) (prompts tr)) /\
  length (unlinked tr) <= length (prompts tr) /\
  (keyPath <> certPath -> NoDup (unlinked tr)).
Proof.
  intros keyPath certPath tr. subst tr keyPath certPath.
  run_cases h; cbn [unlinked prompts flat_map app length ev_call];
    (split; [one_of_these
            |split; [first [left; reflexivity | right; repeat constructor]
                    |split; [cbn; lia|]]]);
    intros Hne; repeat (constructor; [rewrite ?list_elem_of_In; cbn; intuition congruence|]);
    constructor.
Qed.

(** X3: inside a project a run ends in one of three ways.  No call threw
    and no prompt was declined: it returns.  No call threw and one prompt
    was declined: it throws the "Not overwriting" error naming the file of
    that prompt.  One call threw: it throws that very error, and the call
    was the last one it made.  Nothing else happens: never two failures,
    never a failure after a declined prompt. *)
Theorem run_outcomes {W : Type} (h : handler W) (w : W)
    (project : IProject) (inputs : CommandLineInputs) (options : CommandLineOptions) :
  let ask p := "Key " +:+ chalk_bold (prettyPath p) +:+ " exists. Overwrite?" in
  let refusal p := FatalException ("Not overwriting " +:+ chalk_bold (prettyPath p) +:+ ".") in
  let keyPath := run_keyPath (Some project) options in
  let certPath := run_certPath (Some project) options in
  let res := exec h (run (Some project) inputs options) w in
  match thrown res.2, declined res.2 with
  | [], [] => res.1.1 = Returned tt
  | [], [m] =>
      (m = ask keyPath /\ res.1.1 = Thrown (refusal keyPath)) \/
      (m = ask certPath /\ res.1.1 = Thrown (refusal certPath))
  | [e], [] => res.1.1 = Thrown e /\ thrown (removelast res.2) = []
  | _, _ => False
  end.
Proof.
  intros ask refusal keyPath certPath res. subst res keyPath certPath.
  run_cases h;
    cbn [thrown declined flat_map app ev_call ev_answer fst snd removelast q_message];
    first [ reflexivity
          | split; reflexivity
          | left; split; reflexivity
          | right; split; reflexivity ].
Qed.

(** X4: every path a run hands to [pathExists], [fsMkdirp] or [fsUnlink]
    is absolute, whatever the options hold and whatever the surroundings
    answer. *)
Theorem run_paths_absolute {W : Type} (h : handler W) (w : W)
    (this_project : option IProject) (inputs : CommandLineInputs)
    (options : CommandLineOptions) :
  let tr := (exec h (run this_project inputs options) w).2 in
  Forall (fun p => starts_with_slash p = true) (fs_paths tr).
Proof.
  intros tr. subst tr. destruct this_project as [project|]; [|constructor].
  pose proof (resolve_absolute [if truthy (opt_get options "key-path")
                                then js_String (opt_get options "key-path")
                                else getDefaultKeyPath (Some project)]) as Hk.
  pose proof (resolve_absolute [if truthy (opt_get options "cert-path")
                                then js_String (opt_get options "cert-path")
                                else getDefaultCertPath (Some project)]) as Hc.
  fold (run_keyPath (Some project) options) in Hk.
  fold (run_certPath (Some project) options) in Hc.
  pose proof (dirname_absolute _ Hk) as Hkd.
  pose proof (dirname_absolute _ Hc) as Hcd.
  run_cases h; cbn [fs_paths flat_map app ev_call];
    repeat (constructor; [assumption|]); constructor.
Qed.

(** X5: "Generated key & certificate!" is logged at most once and only in
    a run whose subprocess has returned; when the subprocess has not
    returned, nothing is logged after it was started; and a run that
    returns has logged, in this order, one "Created" line per directory it
    created, the empty line, the two paths, and the success line. *)
Theorem run_success {W : Type} (h : handler W) (w : W)
    (project : IProject) (inputs : CommandLineInputs) (options : CommandLineOptions) :
  let keyPath := run_keyPath (Some project) options in
  let certPath := run_certPath (Some project) options in
  let res := exec h (run (Some project) inputs options) w in
  let summary :=
    ["";
     "Key:  " +:+ chalk_bold (prettyPath keyPath) +:+ LF +:+
     "Cert: " +:+ chalk_bold (prettyPath certPath) +:+ LF +:+ LF;
     "Generated key & certificate!"] in
  (log_oks res.2 = [] \/
   log_oks res.2 = ["Generated key & certificate!"] /\ length (shell_returned res.2) = 1) /\
  (shell_returned res.2 = [] -> logged (after is_shell res.2) = []) /\
  (res.1.1 = Returned tt ->
   logged res.2 =
   map (fun d => "Created " +:+ chalk_bold (prettyPath d) +:+ " directory for you.")
     (created res.2) ++ summary).
Proof.
  intros keyPath certPath res summary. subst res keyPath certPath summary.
  run_cases h;
    cbn [log_oks logged shell_returned created after is_shell flat_map app map length
         ev_call ev_answer fst snd];
    (split; [first [left; reflexivity | right; split; reflexivity]
            |split; [intros Hs; first [reflexivity | discriminate Hs]
                    |intros Ho; first [reflexivity | discriminate Ho]]]).
Qed.

End Phases.

(** X2 on the demonstration machine: two different files, both confirmed,
    are unlinked once each; one file named by both options and confirmed
    twice is handed to [fsUnlink] twice, and the second unlink fails. *)
Lemma run_unlinks_witness :
  let key := "/home/dev/app/.ionic/ssl/key.pem" in
  let cert := "/home/dev/app/.ionic/ssl/cert.pem" in
  let disk : gmap string node :=
    <[key := File "old key"]> (<[cert := File "old cert"]>
      {[ "/home/dev/app/.ionic/ssl" := Dir 448 ]}) in
  let w := {| fs := disk; operator := [true; true]; screen := [] |} in
  let apart := exec (machine demo_machine) (@run plain_host (Some demo_project) [] ∅) w in
  let same := exec (machine demo_machine)
                (@run plain_host (Some demo_project) [] {[ "cert-path" := OStr key ]}) w in
  (@run_keyPath plain_host (Some demo_project) ∅
     <> @run_certPath plain_host (Some demo_project) ∅ /\
   unlinked apart.2 = [key; cert] /\ NoDup (unlinked apart.2)) /\
  (unlinked same.2 = [key; key] /\ same.1.1 = Thrown (Rejected "ENOENT")).
Proof.
  intros key cert disk w apart same.
  assert (Hne : @run_keyPath plain_host (Some demo_project) ∅
                <> @run_certPath plain_host (Some demo_project) ∅)
    by (vm_compute; discriminate).
  split; [|split; vm_compute; reflexivity].
  split; [exact Hne|]. split; [vm_compute; reflexivity|].
  exact (proj2 (proj2 (proj2 (@run_unlinks plain_host World (machine demo_machine) w
                                demo_project [] ∅))) Hne).
Defined.

(** X5 on the demonstration machine, in an empty project, and on a machine
    whose [openssl] fails. *)
Lemma run_success_witness :
  let w := {| fs := ∅; operator := []; screen := [] |} in
  let good := @exec World unit (machine demo_machine)
                (@run plain_host (Some demo_project) [] ∅) w in
  let bad := @exec World unit (machine broken_machine)
               (@run plain_host (Some demo_project) [] ∅) w in
  (good.1.1 = Returned tt /\
   logged good.2 =
   ["Created /home/dev/app/.ionic/ssl directory for you."; "";
    "Key:  /home/dev/app/.ionic/ssl/key.pem" +:+ LF +:+
    "Cert: /home/dev/app/.ionic/ssl/cert.pem" +:+ LF +:+ LF;
    "Generated key & certificate!"]) /\
  (shell_returned bad.2 = [] /\ logged (after is_shell bad.2) = []).
Proof.
  intros w good bad. split.
  - assert (Hok : good.1.1 = Returned tt) by (vm_compute; reflexivity).
    split; [exact Hok|].
    etransitivity;
      [exact (proj2 (proj2 (@run_success plain_host World (machine demo_machine) w
                              demo_project [] ∅)) Hok)
      |vm_compute; reflexivity].
  - assert (Hnone : shell_returned bad.2 = []) by (vm_compute; reflexivity).
    split; [exact Hnone|].
    exact (proj1 (proj2 (@run_success plain_host World (machine broken_machine) w
                           demo_project [] ∅)) Hnone).
Defined.

(** ** The documented options *)

Section MetadataFacts.
Context `{Host}.

Lemma getDefaultKeyPath_outside : getDefaultKeyPath None = path.resolve cwd [DEFAULT_KEY_FILE].
Proof.
  pose proof cwd_absolute as Habs.
  unfold getDefaultKeyPath, path.resolve. cbn [rev app path.resolve_loop].
  destruct cwd as [|c s]; [discriminate|]. cbn in Habs.
  cbn [String.eqb starts_with_slash]. rewrite Habs. reflexivity.
Qed.

Lemma getDefaultCertPath_outside :
  getDefaultCertPath None = path.resolve cwd [DEFAULT_CERT_FILE].
Proof.
  pose proof cwd_absolute as Habs.
  unfold getDefaultCertPath, path.resolve. cbn [rev app path.resolve_loop].
  destruct cwd as [|c s]; [discriminate|]. cbn in Habs.
  cbn [String.eqb starts_with_slash]. rewrite Habs. reflexivity.
Qed.

Lemma opt_or_deleted (options : CommandLineOptions) (k d : string) :
  opt_or (delete k options) k d = d.
Proof. unfold opt_or. rewrite opt_get_delete. reflexivity. Qed.

(** X6: [getMetadata] declares the eight options under the names [run]
    reads, and the default it documents for each is what [run] resolves
    once that option is taken out of the bag: the text itself for the six
    subject and key-size options, and for key-path and cert-path the
    pretty form of the very path [run] uses.  Outside a project the two
    documented paths are relative to the working directory. *)
Theorem metadata_defaults (this_project : option IProject) (options : CommandLineOptions) :
  exists md,
    getMetadata this_project = Ret md /\
    map opt_name (cmd_options md) =
      ["key-path"; "cert-path"; "country-name"; "state-or-province-name"; "locality-name";
       "organization-name"; "common-name"; "bits"] /\
    let doc := documented_default (cmd_options md) in
    let without k := run_cnf (delete k options) in
    doc "bits" = Some (bits (without "bits")) /\
    doc "country-name" = Some (countryName (without "country-name")) /\
    doc "state-or-province-name"
      = Some (stateOrProvinceName (without "state-or-province-name")) /\
    doc "locality-name" = Some (localityName (without "locality-name")) /\
    doc "organization-name" = Some (organizationName (without "organization-name")) /\
    doc "common-name" = Some (commonName (without "common-name")) /\
    doc "key-path"
      = Some (prettyPath (run_keyPath this_project (delete "key-path" options))) /\
    doc "cert-path"
      = Some (prettyPath (run_certPath this_project (delete "cert-path" options))) /\
    (this_project = None ->
     doc "key-path" = Some (prettyPath (path.resolve cwd [".ionic/ssl/key.pem"])) /\
     doc "cert-path" = Some (prettyPath (path.resolve cwd [".ionic/ssl/cert.pem"]))).
Proof.
  eexists. split; [reflexivity|]. split; [reflexivity|].
  cbn [cmd_options documented_default opt_name opt_default String.eqb Ascii.eqb Bool.eqb].
  unfold run_cnf.
  cbn [bits countryName stateOrProvinceName localityName organizationName commonName].
  rewrite !opt_or_deleted.
  unfold run_keyPath, run_certPath. rewrite !opt_get_delete. cbn [truthy].
  rewrite getDefaultKeyPath_resolved, getDefaultCertPath_resolved.
  repeat (split; [reflexivity|]).
  intros ->. rewrite getDefaultKeyPath_outside, getDefaultCertPath_outside.
  split; reflexivity.
Qed.

(** X7: [run] reads the options that [getMetadata] declares and no other:
    for two option bags that agree on the declared names, and whatever the
    positional inputs, [run] is the same body. *)
Theorem run_reads_declared_options (this_project : option IProject)
    (inputs inputs' : CommandLineInputs) (options options' : CommandLineOptions) :
  (forall md, getMetadata this_project = Ret md ->
     forall k, In k (map opt_name (cmd_options md)) -> opt_get options k = opt_get options' k) ->
  run this_project inputs options = run this_project inputs' options'.
Proof.
  intros Hsame. specialize (Hsame _ eq_refl). cbn [cmd_options map opt_name] in Hsame.
  assert (Hcnf : run_cnf options = run_cnf options').
  { unfold run_cnf, opt_or. rewrite !Hsame by (cbn; auto 10). reflexivity. }
  assert (Hkey : run_keyPath this_project options = run_keyPath this_project options').
  { unfold run_keyPath. rewrite !Hsame by (cbn; auto 10). reflexivity. }
  assert (Hcert : run_certPath this_project options = run_certPath this_project options').
  { unfold run_certPath. rewrite !Hsame by (cbn; auto 10). reflexivity. }
  unfold run. rewrite Hcnf, Hkey, Hcert. reflexivity.
Qed.

End MetadataFacts.

(** X6 outside a project, on the plain terminal. *)
Lemma metadata_defaults_witness :
  exists md,
    @getMetadata plain_host None = Ret md /\
    documented_default (cmd_options md) "bits" = Some "2048" /\
    documented_default (cmd_options md) "key-path" = Some "/home/dev/app/.ionic/ssl/key.pem".
Proof.
  destruct (@metadata_defaults plain_host None ∅)
    as (md & Hmd & _ & Hbits & _ & _ & _ & _ & _ & _ & _ & Houtside).
  exists md. split; [exact Hmd|]. split; [exact Hbits|].
  exact (proj1 (Houtside eq_refl)).
Defined.

(** X7 with an undeclared option and a positional input more. *)
Lemma run_reads_declared_options_witness :
  @run plain_host (Some demo_project) [] ∅ =
  @run plain_host (Some demo_project) ["extra"] {[ "verbose" := OBool true ]}.
Proof.
  apply (@run_reads_declared_options plain_host).
  intros md Hmd k Hin. inversion Hmd; subst md. clear Hmd.
  cbn [cmd_options map opt_name] in Hin.
  repeat (destruct Hin as [<-|Hin]; [reflexivity|]). destruct Hin.
Defined.

(** ** Text that cannot be empty *)

Lemma js_String_scalar_nonempty (v : CommandLineOption) :
  scalar v = true -> truthy v = true -> js_String v <> "".
Proof.
  destruct v as [s|[]| | |xs]; cbn; try discriminate.
  intros _ Hs Heq. subst s. discriminate.
Qed.

Lemma opt_or_nonempty (options : CommandLineOptions) (k d : string) :
  scalar (opt_get options k) = true -> d <> "" -> opt_or options k d <> "".
Proof.
  intros Hs Hd. unfold opt_or. destruct (truthy (opt_get options k)) eqn:Ht; [|assumption].
  apply js_String_scalar_nonempty; assumption.
Qed.

(** X8: when no option holds an array, none of the six resolved fields is
    the empty text: an empty string supplied for an option gives way to
    the default, so [openssl] is never handed an empty bits or subject
    field. *)
Theorem resolved_fields_nonempty (options : CommandLineOptions) :
  (forall k, scalar (opt_get options k) = true) ->
  let cnf := run_cnf options in
  bits cnf <> "" /\ countryName cnf <> "" /\ stateOrProvinceName cnf <> "" /\
  localityName cnf <> "" /\ organizationName cnf <> "" /\ commonName cnf <> "".
Proof.
  intros Hs cnf. subst cnf. cbn [run_cnf bits countryName stateOrProvinceName localityName
    organizationName commonName].
  repeat split; apply opt_or_nonempty; auto; discriminate.
Qed.

(** X8 with the empty string supplied for [--common-name]. *)
Lemma resolved_fields_nonempty_witness :
  let options : CommandLineOptions := {[ "common-name" := OStr "" ]} in
  (forall k, scalar (opt_get options k) = true) /\
  commonName (run_cnf options) <> "".
Proof.
  intros options.
  assert (Hs : forall k, scalar (opt_get options k) = true).
  { intros k. unfold options, opt_get.
    destruct (decide ("common-name" = k)) as [<-|Hne].
    - rewrite lookup_singleton_eq. reflexivity.
    - rewrite lookup_singleton_ne by assumption. reflexivity. }
  split; [exact Hs|].
  exact (proj2 (proj2 (proj2 (proj2 (proj2 (resolved_fields_nonempty options Hs)))))).
Defined.

(** ** Where the files go by default *)

Lemma list_ascii_app (s t : string) :
  list_ascii_of_string (s +:+ t) = list_ascii_of_string s ++ list_ascii_of_string t.
Proof. induction s as [|a s IH]; [reflexivity|]. rewrite append_cons. cbn. rewrite IH. reflexivity. Qed.

Lemma drop_while_all (f : ascii -> bool) (l1 l2 : list ascii) :
  forallb f l1 = true -> path.drop_while f (l1 ++ l2) = path.drop_while f l2.
Proof.
  induction l1 as [|a l1 IH]; [reflexivity|]. cbn.
  intros [Ha Hl]%andb_true_iff. rewrite Ha. auto.
Qed.

Lemma forallb_rev {A : Type} (f : A -> bool) (l : list A) :
  forallb f (rev l) = forallb f l.
Proof.
  induction l as [|a l IH]; [reflexivity|]. cbn.
  rewrite forallb_app, IH. cbn. rewrite andb_true_r. apply andb_comm.
Qed.

(** The directory of [d/last] is [d], unless [d] is empty or the root. *)
Lemma dirname_append (c : ascii) (d last : string) :
  d <> "" -> slash_free last = true -> last <> "" ->
  path.dirname (String c d +:+ "/" +:+ last) = String c d.
Proof.
  intros Hd Hfree Hlast. rewrite append_cons. unfold path.dirname.
  rewrite list_ascii_app. change (list_ascii_of_string ("/" +:+ last))
    with (slash :: list_ascii_of_string last).
  rewrite rev_app_distr. cbn [rev]. rewrite <- app_assoc. cbn [app].
  assert (Hnoslash : forallb (fun a => negb (is_slash a)) (rev (list_ascii_of_string last)) = true)
    by (rewrite forallb_rev; exact Hfree).
  assert (Hfirst : path.drop_while is_slash
                     (rev (list_ascii_of_string last) ++ slash :: rev (list_ascii_of_string d))
                   = rev (list_ascii_of_string last) ++ slash :: rev (list_ascii_of_string d)).
  { destruct (rev (list_ascii_of_string last)) as [|a l] eqn:Hrev.
    - apply (f_equal (@rev ascii)) in Hrev. rewrite rev_involutive in Hrev.
      destruct last; [contradiction|discriminate].
    - cbn in Hnoslash. apply andb_true_iff in Hnoslash as [Ha _].
      apply negb_true_iff in Ha. cbn. rewrite Ha. reflexivity. }
  rewrite Hfirst, (drop_while_all _ _ _ Hnoslash).
  cbn [path.drop_while]. change (is_slash slash) with true. cbn [negb].
  destruct (rev (list_ascii_of_string d)) as [|a kept] eqn:Hrev.
  - apply (f_equal (@rev ascii)) in Hrev. rewrite rev_involutive in Hrev.
    destruct d; [contradiction|discriminate].
  - rewrite <- Hrev, rev_involutive, string_of_list_ascii_of_string. reflexivity.
Qed.

Lemma join_slash_snoc (xs : list string) (a : string) :
  xs <> [] -> join_slash (xs ++ [a]) = join_slash xs +:+ "/" +:+ a.
Proof.
  induction xs as [|x [|y xs] IH]; intros Hne; [contradiction|reflexivity|].
  change (join_slash ((x :: y :: xs) ++ [a])) with (x +:+ "/" +:+ join_slash ((y :: xs) ++ [a])).
  rewrite IH by discriminate.
  change (join_slash (x :: y :: xs)) with (x +:+ "/" +:+ join_slash (y :: xs)).
  rewrite !append_assoc. reflexivity.
Qed.

Section DefaultPaths.
Context `{Host}.

(** What the loop of [resolve] has collected when it stops: a prefix that
    depends on the arguments only, a slash, and what it started from. *)
Lemma resolve_loop_prefix (l : list string) :
  exists q, forall acc, path.resolve_loop (l ++ [cwd]) acc = (q +:+ "/" +:+ acc, true).
Proof.
  pose proof cwd_absolute as Habs.
  induction l as [|a l [q IH]]; cbn [app path.resolve_loop].
  - exists cwd. intros acc. destruct cwd as [|c s]; [discriminate|].
    cbn in Habs. cbn [String.eqb starts_with_slash]. rewrite Habs. reflexivity.
  - destruct (String.eqb a "") eqn:Ha; [exists q; exact IH|].
    destruct (starts_with_slash a) eqn:Hs.
    + exists a. reflexivity.
    + exists (q +:+ "/" +:+ a). intros acc. rewrite IH, !append_assoc. reflexivity.
Qed.

(** [resolve(dir, sub + '/' + file)] is [resolve(dir, sub)] with [/file]
    appended, for clean names. *)
Lemma resolve_child (dir : string) (a b file : string) :
  clean a = true -> clean b = true -> clean file = true ->
  path.resolve cwd [dir; a +:+ "/" +:+ b +:+ "/" +:+ file] =
  path.resolve cwd [dir; a +:+ "/" +:+ b] +:+ "/" +:+ file /\
  exists d, path.resolve cwd [dir; a +:+ "/" +:+ b] = String slash d /\ d <> "".
Proof.
  intros Ha Hb Hf.
  assert (Hne : forall x y, clean x = true -> String.eqb (x +:+ y) "" = false).
  { intros x y Hx. destruct x; [discriminate Hx|reflexivity]. }
  assert (Hrel : forall x y, clean x = true -> starts_with_slash (x +:+ y) = false).
  { intros x y Hx. destruct x as [|c x]; [discriminate Hx|].
    unfold clean, slash_free in Hx. cbn in Hx.
    repeat (apply andb_true_iff in Hx as [Hx _]). apply negb_true_iff in Hx. exact Hx. }
  assert (Hstep : forall x y acc,
             clean x = true ->
             path.resolve_loop (rev [dir; x +:+ y] ++ [cwd]) acc
             = path.resolve_loop ([dir] ++ [cwd]) ((x +:+ y) +:+ "/" +:+ acc)).
  { intros x y acc Hx. change (rev [dir; x +:+ y] ++ [cwd]) with ((x +:+ y) :: [dir] ++ [cwd]).
    set (rest := [dir] ++ [cwd]). cbn [path.resolve_loop].
    rewrite (Hne x y Hx), (Hrel x y Hx). reflexivity. }
  destruct (resolve_loop_prefix [dir]) as [q Hq].
  unfold path.resolve. rewrite !Hstep, !Hq by assumption. cbn [negb].
  unfold path.normalizeString.
  rewrite !append_assoc, !split_slash_app.
  rewrite !(split_slash_free a), !(split_slash_free b), !(split_slash_free file)
    by (apply clean_slash_free; assumption).
  change (split_slash "") with [""].
  set (st := fold_left (path.normalize_step false) (split_slash q) []).
  rewrite !fold_left_app. fold st. cbn [fold_left app].
  change (path.normalize_step false ?s "") with s.
  rewrite !(normalize_step_clean false st a Ha), !(normalize_step_clean false _ b Hb),
    !(normalize_step_clean false _ file Hf).
  cbn [rev]. rewrite <- !app_assoc. cbn [app].
  change (rev st ++ [a; b; file]) with (rev st ++ [a; b] ++ [file]).
  rewrite (app_assoc (rev st)), join_slash_snoc by (destruct (rev st); discriminate).
  split; [reflexivity|].
  exists (join_slash (rev st ++ [a; b])). split; [reflexivity|].
  change (rev st ++ [a; b]) with (rev st ++ [a] ++ [b]).
  rewrite (app_assoc (rev st)), join_slash_snoc by (destruct (rev st); discriminate).
  destruct (join_slash (rev st ++ [a])); discriminate.
Qed.

(** X9: with neither [--key-path] nor [--cert-path] given (or given a
    falsy value) the key goes to [key.pem] and the certificate to
    [cert.pem] in one and the same directory, [.ionic/ssl] under the
    resolved project directory; that directory is what both calls of
    [ensureDirectory] receive. *)
Theorem default_destination (project : IProject) (options : CommandLineOptions) :
  truthy (opt_get options "key-path") = false ->
  truthy (opt_get options "cert-path") = false ->
  let dir := path.resolve cwd [directory project; ".ionic/ssl"] in
  run_keyPath (Some project) options = dir +:+ "/key.pem" /\
  run_certPath (Some project) options = dir +:+ "/cert.pem" /\
  path.dirname (run_keyPath (Some project) options) = dir /\
  path.dirname (run_certPath (Some project) options) = dir.
Proof.
  intros Hk Hc dir.
  assert (Hkey : run_keyPath (Some project) options = dir +:+ "/key.pem").
  { unfold run_keyPath. rewrite Hk, getDefaultKeyPath_resolved.
    apply (proj1 (resolve_child (directory project) ".ionic" "ssl" "key.pem"
                    eq_refl eq_refl eq_refl)). }
  assert (Hcert : run_certPath (Some project) options = dir +:+ "/cert.pem").
  { unfold run_certPath. rewrite Hc, getDefaultCertPath_resolved.
    apply (proj1 (resolve_child (directory project) ".ionic" "ssl" "cert.pem"
                    eq_refl eq_refl eq_refl)). }
  destruct (proj2 (resolve_child (directory project) ".ionic" "ssl" "key.pem"
                     eq_refl eq_refl eq_refl)) as (d & Hd & Hne).
  change (path.resolve cwd [directory project; ".ionic" +:+ "/" +:+ "ssl"]) with dir in Hd.
  rewrite Hkey, Hcert, Hd.
  repeat split; apply dirname_append; (assumption || reflexivity || discriminate).
Qed.

End DefaultPaths.

(** X9 for a project in [/home/dev/app]. *)
Lemma default_destination_witness :
  truthy (opt_get (∅ : CommandLineOptions) "key-path") = false /\
  truthy (opt_get (∅ : CommandLineOptions) "cert-path") = false /\
  @run_keyPath plain_host (Some demo_project) ∅ = "/home/dev/app/.ionic/ssl/key.pem" /\
  path.dirname (@run_certPath plain_host (Some demo_project) ∅) = "/home/dev/app/.ionic/ssl".
Proof.
  assert (Hk : truthy (opt_get (∅ : CommandLineOptions) "key-path") = false) by reflexivity.
  assert (Hc : truthy (opt_get (∅ : CommandLineOptions) "cert-path") = false) by reflexivity.
  split; [exact Hk|]. split; [exact Hc|].
  destruct (@default_destination plain_host demo_project ∅ Hk Hc)
    as (Hkey & _ & _ & Hdir).
  split.
  - etransitivity; [exact Hkey|vm_compute; reflexivity].
  - etransitivity; [exact Hdir|vm_compute; reflexivity].
Defined.

(** ** The configuration text, in general *)

Lemma trim_end_nonspace (a : ascii) (t : string) :
  is_js_space a = false -> trim_end (String a t) = String a (trim_end t).
Proof. intros Ha. cbn [trim_end]. rewrite Ha. destruct (trim_end t); reflexivity. Qed.

Lemma trim_end_cons_solid (a : ascii) (t : string) :
  trim_end t <> "" -> trim_end (String a t) = String a (trim_end t).
Proof. intros Ht. cbn [trim_end]. destruct (trim_end t); [contradiction|reflexivity]. Qed.

Lemma trim_end_app_solid (s t : string) :
  trim_end t <> "" -> trim_end (s +:+ t) = s +:+ trim_end t.
Proof.
  intros Ht. induction s as [|a s IH]; [reflexivity|].
  rewrite !append_cons, trim_end_cons_solid; rewrite IH; [reflexivity|].
  destruct s; [exact Ht|discriminate].
Qed.

Lemma trim_end_app_blank (s t : string) :
  trim_end t = "" -> trim_end (s +:+ t) = trim_end s.
Proof.
  intros Ht. induction s as [|a s IH]; [exact Ht|].
  rewrite append_cons. cbn [trim_end]. rewrite IH. reflexivity.
Qed.

Lemma solid_nonspace (a : ascii) (t : string) :
  is_js_space a = false -> trim_end (String a t) <> "".
Proof. intros Ha. rewrite trim_end_nonspace by assumption. discriminate. Qed.

Lemma solid_cons (a : ascii) (t : string) :
  trim_end t <> "" -> trim_end (String a t) <> "".
Proof. intros Ht. rewrite trim_end_cons_solid by assumption. discriminate. Qed.

Lemma solid_app (s t : string) :
  trim_end t <> "" -> trim_end (s +:+ t) <> "".
Proof.
  intros Ht. rewrite trim_end_app_solid by assumption.
  destruct s; [exact Ht|discriminate].
Qed.

Ltac solid :=
  repeat first [ apply solid_nonspace; reflexivity
               | apply solid_cons
               | apply solid_app ].

Ltac trim_end_step :=
  first [ rewrite trim_end_nonspace by reflexivity
        | rewrite trim_end_cons_solid by solid
        | rewrite trim_end_app_solid by solid ].

Lemma config_text_trimmed (c : OpenSSLConfig) :
  config_text c =
  "[req]" +:+ LF +:+
  "default_bits       = " +:+ bits c +:+ LF +:+
  "distinguished_name = req_distinguished_name" +:+ LF +:+
  LF +:+
  "[req_distinguished_name]" +:+ LF +:+
  "countryName                = " +:+ countryName c +:+ LF +:+
  "stateOrProvinceName        = " +:+ stateOrProvinceName c +:+ LF +:+
  "localityName               = " +:+ localityName c +:+ LF +:+
  "organizationName           = " +:+ organizationName c +:+ LF +:+
  "commonName                 = " +:+ commonName c +:+ LF +:+
  LF +:+
  "[SAN]" +:+ LF +:+
  "subjectAltName=DNS:" +:+ trim_end (commonName c).
Proof.
  unfold config_text, trim, LF. change (ascii_of_nat 10) with "010"%char.
  repeat string_norm. cbn [trim_start]. change (is_js_space "010") with true.
  change (is_js_space "[") with false. cbv iota.
  repeat trim_end_step.
  rewrite trim_end_app_blank by reflexivity. reflexivity.
Qed.

(** X10: for arbitrary fields the text [writeConfig] writes is the
    template without the line feed before [[req]] and the one after the
    last line; besides these, [trim] removes only the blanks at the end of
    the common name in the [subjectAltName] line, while the [commonName]
    line keeps them. *)
Theorem config_text_exact (c : OpenSSLConfig) :
  config_text c =
  "[req]" +:+ LF +:+
  "default_bits       = " +:+ bits c +:+ LF +:+
  "distinguished_name = req_distinguished_name" +:+ LF +:+
  LF +:+
  "[req_distinguished_name]" +:+ LF +:+
  "countryName                = " +:+ countryName c +:+ LF +:+
  "stateOrProvinceName        = " +:+ stateOrProvinceName c +:+ LF +:+
  "localityName               = " +:+ localityName c +:+ LF +:+
  "organizationName           = " +:+ organizationName c +:+ LF +:+
  "commonName                 = " +:+ commonName c +:+ LF +:+
  LF +:+
  "[SAN]" +:+ LF +:+
  "subjectAltName=DNS:" +:+ trim_end (commonName c).
Proof.
  unfold config_text, trim, LF. change (ascii_of_nat 10) with "010"%char.
  repeat string_norm. cbn [trim_start]. change (is_js_space "010") with true.
  change (is_js_space "[") with false. cbv iota.
  repeat trim_end_step.
  rewrite trim_end_app_blank by reflexivity. reflexivity.
Qed.

(** ** The lines of the configuration *)

Lemma lines_nonempty (s : string) : lines s <> [].
Proof.
  induction s as [|c s IH]; cbn [lines]; [discriminate|].
  destruct (Ascii.eqb c (ascii_of_nat 10)); [discriminate|].
  destruct (lines s); [contradiction|discriminate].
Qed.

Lemma lines_app (s t : string) : lines (s +:+ LF +:+ t) = lines s ++ lines t.
Proof.
  induction s as [|c s IH]; [reflexivity|].
  rewrite append_cons. cbn [lines]. rewrite IH.
  destruct (Ascii.eqb c (ascii_of_nat 10)); [reflexivity|].
  pose proof (lines_nonempty s). destruct (lines s); [contradiction|reflexivity].
Qed.

Lemma lines_free (s : string) : lf_free s = true -> lines s = [s].
Proof.
  unfold lf_free. induction s as [|c s IH]; [reflexivity|]. cbn.
  intros [Hc Hs]%andb_true_iff. apply negb_true_iff in Hc. rewrite Hc, (IH Hs). reflexivity.
Qed.

Lemma lines_concat (ls : list string) :
  ls <> [] -> Forall (fun l => lf_free l = true) ls -> lines (String.concat LF ls) = ls.
Proof.
  induction ls as [|a [|b rest] IH]; intros Hne Hall; [contradiction| |].
  - inversion Hall; subst. apply lines_free. assumption.
  - inversion Hall as [|? ? Ha Hrest]; subst.
    change (String.concat LF (a :: b :: rest)) with (a +:+ LF +:+ String.concat LF (b :: rest)).
    rewrite lines_app, IH, lines_free by (assumption || discriminate). reflexivity.
Qed.

Lemma lf_free_app (s t : string) : lf_free (s +:+ t) = lf_free s && lf_free t.
Proof. unfold lf_free. rewrite list_ascii_app, forallb_app. reflexivity. Qed.

Lemma lf_free_trim_end (s : string) : lf_free s = true -> lf_free (trim_end s) = true.
Proof.
  unfold lf_free. induction s as [|c s IH]; [reflexivity|]. cbn [list_ascii_of_string forallb trim_end].
  intros [Hc Hs]%andb_true_iff. specialize (IH Hs).
  destruct (trim_end s) as [|a t].
  - destruct (is_js_space c); [reflexivity|]. cbn. rewrite Hc. reflexivity.
  - cbn [list_ascii_of_string forallb]. rewrite Hc. exact IH.
Qed.

(** X11: when none of the six fields holds a line feed, the text
    [writeConfig] writes has exactly the thirteen lines of the template,
    each field on the line of its key; a field can add a line, a header
    among them, only by holding a line feed itself. *)
Theorem config_lines (c : OpenSSLConfig) :
  lf_free (bits c) = true -> lf_free (countryName c) = true ->
  lf_free (stateOrProvinceName c) = true -> lf_free (localityName c) = true ->
  lf_free (organizationName c) = true -> lf_free (commonName c) = true ->
  lines (config_text c) =
  [ "[req]";
    "default_bits       = " +:+ bits c;
    "distinguished_name = req_distinguished_name";
    "";
    "[req_distinguished_name]";
    "countryName                = " +:+ countryName c;
    "stateOrProvinceName        = " +:+ stateOrProvinceName c;
    "localityName               = " +:+ localityName c;
    "organizationName           = " +:+ organizationName c;
    "commonName                 = " +:+ commonName c;
    "";
    "[SAN]";
    "subjectAltName=DNS:" +:+ trim_end (commonName c) ].
Proof.
  intros Hb Hc Hs Hl Ho Hn.
  assert (Hn' : lf_free (trim_end (commonName c)) = true).
  { apply lf_free_trim_end. assumption. }
  rewrite config_text_trimmed.
  match goal with
  | |- lines ?text = ?ls =>
      replace text with (String.concat LF ls)
        by (cbn [String.concat]; rewrite ?append_assoc; reflexivity)
  end.
  apply lines_concat; [discriminate|].
  repeat (constructor; [rewrite ?lf_free_app; try reflexivity;
                        rewrite ?Hb, ?Hc, ?Hs, ?Hl, ?Ho, ?Hn, ?Hn'; reflexivity|]).
  constructor.
Qed.

(** X11 at the defaults. *)
Lemma config_lines_witness :
  let c := run_cnf ∅ in
  lf_free (bits c) = true /\ lf_free (commonName c) = true /\
  lines (config_text c) =
  [ "[req]";
    "default_bits       = 2048";
    "distinguished_name = req_distinguished_name";
    "";
    "[req_distinguished_name]";
    "countryName                = US";
    "stateOrProvinceName        = Wisconsin";
    "localityName               = Madison";
    "organizationName           = Ionic";
    "commonName                 = localhost";
    "";
    "[SAN]";
    "subjectAltName=DNS:localhost" ].
Proof.
  intros c. split; [reflexivity|]. split; [reflexivity|].
  exact (config_lines c eq_refl eq_refl eq_refl eq_refl eq_refl eq_refl).
Defined.

(** ** A failing subprocess after a confirmed overwrite *)

Section NoRollback.
Context `{Host}.

Lemma ensureDirectory_machine_present (m : Machine) (w : World) (p : string) :
  is_Some (fs w !! p) ->
  exec (machine m) (ensureDirectory p) w =
  (Returned tt, w, [Ev (PathExists p) (Returned true)]).
Proof.
  intros [n Hn]. unfold ensureDirectory, await. cbn [exec bind machine]. rewrite Hn. reflexivity.
Qed.

(** X12: nothing is rolled back.  On a machine where the key and the
    certificate exist as two files in existing directories, the operator
    confirms both prompts and [openssl] then fails without touching a
    file: the run throws the error of the subprocess, the old key and the
    old certificate are gone, the temporary configuration file is left in
    place, and nothing has been logged. *)
Theorem failed_openssl_after_overwrite (m : Machine) (w : World)
    (project : IProject) (inputs : CommandLineInputs) (options : CommandLineOptions)
    (oldKey oldCert : string) (answers : list bool) (e : exn) :
  let keyPath := run_keyPath (Some project) options in
  let certPath := run_certPath (Some project) options in
  let cnfPath := tmpname m "ionic-ssl" in
  fs w !! keyPath = Some (File oldKey) ->
  fs w !! certPath = Some (File oldCert) ->
  keyPath <> certPath ->
  is_Some (fs w !! path.dirname keyPath) ->
  is_Some (fs w !! path.dirname certPath) ->
  operator w = true :: true :: answers ->
  fs w !! cnfPath = None ->
  (forall args f, shell m "openssl" args f = (Thrown e, f)) ->
  let res := exec (machine m) (run (Some project) inputs options) w in
  res.1.1 = Thrown e /\
  fs res.1.2 !! keyPath = None /\
  fs res.1.2 !! certPath = None /\
  fs res.1.2 !! cnfPath = Some (File (config_text (run_cnf options))) /\
  logged res.2 = [].
Proof.
  intros keyPath certPath cnfPath Hk Hc Hne Hkd Hcd Hop Htmp Hshell res. subst res.
  assert (Htk : cnfPath <> keyPath) by (intros Heq; rewrite Heq in Htmp; congruence).
  assert (Htc : cnfPath <> certPath) by (intros Heq; rewrite Heq in Htmp; congruence).
  unfold run. fold keyPath certPath.
  rewrite exec_bind, (ensureDirectory_machine_present m w _ Hkd).
  rewrite exec_bind, (ensureDirectory_machine_present m w _ Hcd).
  rewrite exec_bind, (checkExistingFile_machine m w keyPath _ Hk), Hop.
  set (w1 := {| fs := fs w; operator := true :: answers; screen := screen w |}).
  rewrite exec_bind, (checkExistingFile_machine m w1 certPath _ Hc). cbn [operator w1].
  unfold writeConfig, await, invoke.
  cbn [exec bind machine from_option id fs w1 set_fs operator screen].
  rewrite Hk. cbn [exec bind machine from_option id fs w1 set_fs operator screen].
  rewrite lookup_delete_ne, Hc by assumption.
  cbn [exec bind machine from_option id fs w1 set_fs operator screen].
  fold cnfPath. rewrite !lookup_delete_ne, Htmp by (intros Heq; congruence).
  cbn [exec bind machine from_option id fs w1 set_fs operator screen].
  rewrite Hshell. cbn [fst snd fs set_fs app].
  repeat split.
  - rewrite lookup_insert_ne, lookup_delete_ne, lookup_delete_eq by congruence. reflexivity.
  - rewrite lookup_insert_ne, lookup_delete_eq by congruence. reflexivity.
  - apply lookup_insert_eq.
Qed.
End NoRollback.

(** X12 on the machine whose [openssl] fails. *)
Lemma failed_openssl_after_overwrite_witness :
  let key := "/home/dev/app/.ionic/ssl/key.pem" in
  let cert := "/home/dev/app/.ionic/ssl/cert.pem" in
  let disk : gmap string node :=
    <[key := File "old key"]> (<[cert := File "old cert"]>
      {[ "/home/dev/app/.ionic/ssl" := Dir 448 ]}) in
  let w := {| fs := disk; operator := [true; true]; screen := [] |} in
  let res := exec (machine broken_machine) (@run plain_host (Some demo_project) [] ∅) w in
  (disk !! key = Some (File "old key") /\ disk !! cert = Some (File "old cert")) /\
  res.1.1 = Thrown (Rejected "openssl exited with 1") /\
  fs res.1.2 !! key = None /\
  fs res.1.2 !! cert = None.
Proof.
  intros key cert disk w res.
  assert (Hk : disk !! key = Some (File "old key")) by (vm_compute; reflexivity).
  assert (Hc : disk !! cert = Some (File "old cert")) by (vm_compute; reflexivity).
  split; [split; assumption|].
  assert (Ekey : @run_keyPath plain_host (Some demo_project) ∅ = key)
    by (vm_compute; reflexivity).
  assert (Ecert : @run_certPath plain_host (Some demo_project) ∅ = cert)
    by (vm_compute; reflexivity).
  pose proof (@failed_openssl_after_overwrite plain_host broken_machine w demo_project [] ∅
                "old key" "old cert" [] (Rejected "openssl exited with 1")) as Hthm.
  cbv zeta in Hthm. rewrite Ekey, Ecert in Hthm.
  destruct Hthm as (Hout & Hgone_key & Hgone_cert & _).
  - exact Hk.
  - exact Hc.
  - discriminate.
  - eexists. vm_compute. reflexivity.
  - eexists. vm_compute. reflexivity.
  - reflexivity.
  - vm_compute. reflexivity.
  - reflexivity.
  - split; [exact Hout|]. split; [exact Hgone_key|exact Hgone_cert].
Defined.

(** ** The subject string, read back *)

Lemma slash_free_cons (a : ascii) (s : string) :
  slash_free (String a s) = negb (is_slash a) && slash_free s.
Proof. reflexivity. Qed.

Lemma clean_tagged (a : ascii) (s : string) :
  is_slash a = false -> Ascii.eqb a "."%char = false -> slash_free s = true ->
  clean (String a s) = true.
Proof.
  intros Ha Hdot Hs. unfold clean, nonempty. rewrite slash_free_cons, Ha, Hs.
  cbn [String.eqb negb andb]. rewrite Hdot. reflexivity.
Qed.

(** X13: when none of the five subject fields holds a slash, cutting the
    subject string at its slashes gives back the five components C, ST, L,
    O and CN with the fields as they are, after the empty piece before the
    leading slash.  The code does not escape a slash inside a field. *)
Theorem formatSubj_components (c : OpenSSLConfig) :
  slash_free (countryName c) = true ->
  slash_free (stateOrProvinceName c) = true ->
  slash_free (localityName c) = true ->
  slash_free (organizationName c) = true ->
  slash_free (commonName c) = true ->
  split_slash (formatSubj c) =
  [""; "C=" +:+ countryName c; "ST=" +:+ stateOrProvinceName c; "L=" +:+ localityName c;
   "O=" +:+ organizationName c; "CN=" +:+ commonName c].
Proof.
  intros Hc Hs Hl Ho Hn. unfold formatSubj.
  cbn [toPairs List.filter map Map_has Map_get String.eqb Ascii.eqb Bool.eqb interpolate
       default from_option id].
  change (split_slash ("/" +:+ ?x)) with ("" :: split_slash x).
  f_equal. repeat string_norm. apply split_join; [discriminate|].
  repeat (constructor;
          [apply clean_tagged; [reflexivity|reflexivity|];
           rewrite ?slash_free_cons, ?Hc, ?Hs, ?Hl, ?Ho, ?Hn; reflexivity|]).
  constructor.
Qed.

(** X13 at the defaults. *)
Lemma formatSubj_components_witness :
  let c := run_cnf ∅ in
  slash_free (countryName c) = true /\
  split_slash (formatSubj c) =
  [""; "C=US"; "ST=Wisconsin"; "L=Madison"; "O=Ionic"; "CN=localhost"].
Proof.
  intros c. split; [reflexivity|].
  exact (formatSubj_components c eq_refl eq_refl eq_refl eq_refl eq_refl).
Defined.
